(** * ReconX: scan orchestration core

    A shallow embedding of the orchestration core of ReconX
    (checkpoint store, stage engine, process supervisor, task queue,
    resilience monitor, tool registry) and the properties of the
    design document checked against it.

    Conventions.
    - Python dictionaries used as records of JSON data are association
      lists in insertion order ([JDict]); dictionaries used as maps keyed
      by a scan or tool name are [gmap string _].
    - Objects that several owners mutate (a [ScanTask] referenced from the
      queue, from [active_tasks], from [paused_tasks] and from
      [_current_task]) live in a heap addressed by location.
    - Time is a number of milliseconds, in [N].  The flags that other
      coroutines set while a coroutine is suspended are given by a
      timeline of control commands; a coroutine that wakes up at time [t]
      sees the effect of every command issued up to [t].
    - Exceptions are a sum type; [except Exception] is a match on it.
    - What is read from a pipe is a [string] of bytes; a decoded Python
      [str] is the list of its code points ([Unicode.str]). *)

From Stdlib Require Import ZArith List Ascii String Lia Bool.
From stdpp Require Import gmap strings list.
Import ListNotations.
Local Open Scope string_scope.
Local Open Scope Z_scope.

(** ** Small string utilities *)

Module Str.

Definition bytes_of_string (s : string) : list Z :=
  map (fun a => Z.of_N (N_of_ascii a)) (list_ascii_of_string s).

Fixpoint concat_with (sep : string) (l : list string) : string :=
  match l with
  | [] => ""
  | [x] => x
  | x :: rest => x ++ sep ++ concat_with sep rest
  end.

Fixpoint take (n : nat) (s : string) : string :=
  match n, s with
  | O, _ => ""
  | S _, EmptyString => ""
  | S k, String c r => String c (take k r)
  end.

Definition hex_digit (d : Z) : ascii :=
  if d <? 10 then ascii_of_N (Z.to_N (48 + d)) else ascii_of_N (Z.to_N (87 + d)).

(** [n] lowercase hexadecimal digits of [x], most significant first. *)
Fixpoint hex_fixed (n : nat) (x : Z) : string :=
  match n with
  | O => ""
  | S k => String (hex_digit (Z.shiftr x (4 * Z.of_nat k) mod 16)) (hex_fixed k x)
  end.

Definition digit_of_hex (a : ascii) : option Z :=
  let c := Z.of_N (N_of_ascii a) in
  if (48 <=? c) && (c <=? 57) then Some (c - 48)
  else if (97 <=? c) && (c <=? 102) then Some (c - 87)
  else None.

(** Words written in hexadecimal and separated by blanks. *)
Fixpoint hex_words_aux (s : string) (cur : option Z) : list Z :=
  match s with
  | EmptyString => match cur with Some v => [v] | None => [] end
  | String a r =>
      match digit_of_hex a with
      | Some d => hex_words_aux r (Some (16 * default 0 cur + d))
      | None => match cur with
                | Some v => v :: hex_words_aux r None
                | None => hex_words_aux r None
                end
      end
  end.

Definition hex_words (s : string) : list Z := hex_words_aux s None.

Fixpoint decimal_digits (fuel : nat) (n : Z) (acc : string) : string :=
  match fuel with
  | O => acc
  | S k =>
      let acc' := String (ascii_of_N (Z.to_N (48 + n mod 10))) acc in
      if n <? 10 then acc' else decimal_digits k (n / 10) acc'
  end.

(** [str(n)] for a Python [int]. *)
Definition of_Z (n : Z) : string :=
  if n <? 0 then "-" ++ decimal_digits (S (Z.to_nat (Z.log2 (- n)))) (- n) ""
  else decimal_digits (S (Z.to_nat (Z.log2 n))) n "".

(** Every character of [s] satisfies [p]. *)
Fixpoint all (p : ascii -> bool) (s : string) : bool :=
  match s with
  | EmptyString => true
  | String a r => p a && all p r
  end.

(** A lowercase hexadecimal digit; a printable ASCII character. *)
Definition is_hex (a : ascii) : bool :=
  match digit_of_hex a with Some _ => true | None => false end.

Definition printable (a : ascii) : bool :=
  let c := Z.of_N (N_of_ascii a) in (32 <=? c) && (c <=? 126).

End Str.

(** ** hashlib.sha256 *)

Module SHA256.

Definition w32 (x : Z) : Z := x mod 2 ^ 32.
Definition add32 (x y : Z) : Z := w32 (x + y).
Definition rotr (n x : Z) : Z := Z.lor (Z.shiftr x n) (w32 (Z.shiftl x (32 - n))).
Definition not32 (x : Z) : Z := Z.lxor x (2 ^ 32 - 1).

Definition ch (x y z : Z) := Z.lxor (Z.land x y) (Z.land (not32 x) z).
Definition maj (x y z : Z) := Z.lxor (Z.lxor (Z.land x y) (Z.land x z)) (Z.land y z).
Definition bsig0 x := Z.lxor (Z.lxor (rotr 2 x) (rotr 13 x)) (rotr 22 x).
Definition bsig1 x := Z.lxor (Z.lxor (rotr 6 x) (rotr 11 x)) (rotr 25 x).
Definition ssig0 x := Z.lxor (Z.lxor (rotr 7 x) (rotr 18 x)) (Z.shiftr x 3).
Definition ssig1 x := Z.lxor (Z.lxor (rotr 17 x) (rotr 19 x)) (Z.shiftr x 10).

Definition round_constants : list Z := Eval vm_compute in Str.hex_words
  "428a2f98 71374491 b5c0fbcf e9b5dba5 3956c25b 59f111f1 923f82a4 ab1c5ed5
   d807aa98 12835b01 243185be 550c7dc3 72be5d74 80deb1fe 9bdc06a7 c19bf174
   e49b69c1 efbe4786 0fc19dc6 240ca1cc 2de92c6f 4a7484aa 5cb0a9dc 76f988da
   983e5152 a831c66d b00327c8 bf597fc7 c6e00bf3 d5a79147 06ca6351 14292967
   27b70a85 2e1b2138 4d2c6dfc 53380d13 650a7354 766a0abb 81c2c92e 92722c85
   a2bfe8a1 a81a664b c24b8b70 c76c51a3 d192e819 d6990624 f40e3585 106aa070
   19a4c116 1e376c08 2748774c 34b0bcb5 391c0cb3 4ed8aa4a 5b9cca4f 682e6ff3
   748f82ee 78a5636f 84c87814 8cc70208 90befffa a4506ceb bef9a3f7 c67178f2".

Definition initial_hash : list Z := Eval vm_compute in Str.hex_words
  "6a09e667 bb67ae85 3c6ef372 a54ff53a 510e527f 9b05688c 1f83d9ab 5be0cd19".

(** Padding: a 1 bit, zeros up to 56 mod 64 bytes, the bit length on 8 bytes. *)
Definition be_bytes (n : nat) (x : Z) : list Z :=
  map (fun i => Z.shiftr x (8 * Z.of_nat i) mod 256) (rev (seq 0 n)).

Definition pad (msg : list Z) : list Z :=
  let len := Z.of_nat (length msg) in
  let zeros := Z.to_nat ((55 - len) mod 64) in
  msg ++ [128] ++ repeat 0 zeros ++ be_bytes 8 (8 * len).

Fixpoint be_words (fuel : nat) (bs : list Z) : list Z :=
  match fuel, bs with
  | S k, b0 :: b1 :: b2 :: b3 :: rest =>
      (((b0 * 256 + b1) * 256 + b2) * 256 + b3) :: be_words k rest
  | _, _ => []
  end.

(** The message schedule, latest word first. *)
Fixpoint extend (n : nat) (rw : list Z) : list Z :=
  match n with
  | O => rw
  | S k =>
      let x := add32 (add32 (ssig1 (nth 1 rw 0)) (nth 6 rw 0))
                     (add32 (ssig0 (nth 14 rw 0)) (nth 15 rw 0)) in
      extend k (x :: rw)
  end.

Definition schedule (block : list Z) : list Z := rev (extend 48 (rev block)).

Record regs := Regs { ra : Z; rb : Z; rc : Z; rd : Z; re : Z; rf : Z; rg : Z; rh : Z }.

Definition regs_of (l : list Z) : regs :=
  Regs (nth 0 l 0) (nth 1 l 0) (nth 2 l 0) (nth 3 l 0)
       (nth 4 l 0) (nth 5 l 0) (nth 6 l 0) (nth 7 l 0).

Definition regs_list (r : regs) : list Z :=
  [ra r; rb r; rc r; rd r; re r; rf r; rg r; rh r].

Definition round (r : regs) (kw : Z * Z) : regs :=
  let t1 := add32 (add32 (add32 (rh r) (bsig1 (re r))) (ch (re r) (rf r) (rg r)))
                  (add32 (fst kw) (snd kw)) in
  let t2 := add32 (bsig0 (ra r)) (maj (ra r) (rb r) (rc r)) in
  Regs (add32 t1 t2) (ra r) (rb r) (rc r) (add32 (rd r) t1) (re r) (rf r) (rg r).

Definition compress (h : list Z) (block : list Z) : list Z :=
  let r := fold_left round (combine round_constants (schedule block)) (regs_of h) in
  zip_with add32 h (regs_list r).

Fixpoint blocks (fuel : nat) (ws : list Z) (h : list Z) : list Z :=
  match fuel with
  | O => h
  | S k =>
      match ws with
      | [] => h
      | _ => blocks k (skipn 16 ws) (compress h (firstn 16 ws))
      end
  end.

Definition digest_words (msg : list Z) : list Z :=
  let p := pad msg in
  blocks (length p) (be_words (length p) p) initial_hash.

(** [hashlib.sha256(msg).hexdigest()] *)
Definition hexdigest (msg : list Z) : string :=
  Str.concat_with "" (map (Str.hex_fixed 8) (digest_words msg)).

End SHA256.

(** ** JSON values and json.dumps *)

(** The values [json.load] produces.  Floats are left out: nothing the
    checkpoint code does depends on them. *)
#[warnings="-register-all"]
Inductive json : Type :=
  | JNull
  | JBool (b : bool)
  | JInt (n : Z)
  | JStr (s : string)
  | JList (items : list json)
  | JDict (entries : list (string * json)).

Module Json.

(** Python truthiness, as used by [if x:] and [x or y]. *)
Definition truthy (j : json) : bool :=
  match j with
  | JNull => false
  | JBool b => b
  | JInt n => negb (n =? 0)
  | JStr s => negb (String.eqb s "")
  | JList l => match l with [] => false | _ => true end
  | JDict d => match d with [] => false | _ => true end
  end.

(** [d.get(k)] on the entries of a dictionary. *)
Fixpoint lookup (k : string) (d : list (string * json)) : option json :=
  match d with
  | [] => None
  | (k', v) :: rest => if String.eqb k k' then Some v else lookup k rest
  end.

(** [d[k] = v]: an existing key keeps its position. *)
Fixpoint set (k : string) (v : json) (d : list (string * json)) : list (string * json) :=
  match d with
  | [] => [(k, v)]
  | (k', v') :: rest =>
      if String.eqb k k' then (k, v) :: rest else (k', v') :: set k v rest
  end.

(** [{k: v for k, v in d.items() if k != key}] *)
Definition without (key : string) (d : list (string * json)) : list (string * json) :=
  List.filter (fun kv => negb (String.eqb (fst kv) key)) d.

Definition is_str (s : string) (j : json) : bool :=
  match j with JStr s' => String.eqb s' s | _ => false end.

Definition dquote : string := String (ascii_of_N 34) "".

(** One character of a string literal, as [ensure_ascii=True] writes it. *)
Definition escape_char (a : ascii) : string :=
  let c := Z.of_N (N_of_ascii a) in
  if c =? 34 then "\" ++ dquote
  else if c =? 92 then "\\"
  else if c =? 8 then "\b"
  else if c =? 12 then "\f"
  else if c =? 10 then "\n"
  else if c =? 13 then "\r"
  else if c =? 9 then "\t"
  else if orb (c <? 32) (126 <? c) then "\u" ++ Str.hex_fixed 4 c
  else String a "".

Fixpoint escape (s : string) : string :=
  match s with
  | EmptyString => ""
  | String a r => escape_char a ++ escape r
  end.

Definition quote (s : string) : string := dquote ++ escape s ++ dquote.

(** [sorted] on rendered items, by key (keys of a dictionary are distinct). *)
Fixpoint insert_item (kv : string * string) (l : list (string * string)) :=
  match l with
  | [] => [kv]
  | kv' :: rest =>
      if String.ltb (fst kv) (fst kv') then kv :: l else kv' :: insert_item kv rest
  end.

Definition sort_items (l : list (string * string)) : list (string * string) :=
  fold_right insert_item [] l.

Definition render_item (kv : string * string) : string :=
  quote (fst kv) ++ ": " ++ snd kv.

(** [json.dumps(j, sort_keys=True)] with the default separators. *)
Fixpoint dumps (j : json) : string :=
  match j with
  | JNull => "null"
  | JBool true => "true"
  | JBool false => "false"
  | JInt n => Str.of_Z n
  | JStr s => quote s
  | JList l => "[" ++ Str.concat_with ", " (map dumps l) ++ "]"
  | JDict d =>
      "{" ++ Str.concat_with ", "
               (map render_item
                  (sort_items (map (fun kv : string * json => let (k, v) := kv in (k, dumps v)) d)))
          ++ "}"
  end.

End Json.

(** ** Exceptions *)

Inductive exn : Type :=
  | TypeError
  | AttributeError
  | JSONDecodeError
  | OSError
  | DatabaseError
  | ValueError (msg : string)
  | ProcessLookupError
  | ScannerError (msg : string).

Inductive result (A : Type) : Type :=
  | Ok (a : A)
  | Raise (e : exn).
Arguments Ok {A} a.
Arguments Raise {A} e.

Definition bind {A B} (r : result A) (k : A -> result B) : result B :=
  match r with
  | Ok a => k a
  | Raise e => Raise e
  end.

#[global] Instance result_bind : MBind result := fun A B k r => bind r k.
#[global] Instance result_ret : MRet result := fun A a => Ok a.

(** The content of a text file or TEXT column: either the JSON text of a
    value (what [json.dump] wrote, and what [json.load] reads back), or
    characters that [json.load] rejects. *)
Inductive text : Type :=
  | Encoded (j : json)
  | Garbled (chars : string).

Definition json_load (t : text) : result json :=
  match t with
  | Encoded j => Ok j
  | Garbled _ => Raise JSONDecodeError
  end.

Definition text_nonempty (t : text) : bool :=
  match t with
  | Encoded _ => true
  | Garbled s => negb (String.eqb s "")
  end.

(** ** api/database.py: the scans table *)

Module DB.

Record scan_row := ScanRow {
  target_id : string;
  name : string;
  profile : string;
  status : string;
  started_at : option N;
  completed_at : option N;
  progress : json;
  current_task : option string;
  config : json;
  error_message : option string;
  checkpoint_data : option text;
  is_resumed : bool;
  llm_model_used : option string;
  created_at : N
}.

(** The table, keyed by the primary key [id]. *)
Abbreviation scans := (gmap string scan_row).

Definition set_status (v : string) (r : scan_row) : scan_row :=
  ScanRow (target_id r) (name r) (profile r) v (started_at r) (completed_at r)
          (progress r) (current_task r) (config r) (error_message r)
          (checkpoint_data r) (is_resumed r) (llm_model_used r) (created_at r).
Definition set_started_at (v : option N) (r : scan_row) : scan_row :=
  ScanRow (target_id r) (name r) (profile r) (status r) v (completed_at r)
          (progress r) (current_task r) (config r) (error_message r)
          (checkpoint_data r) (is_resumed r) (llm_model_used r) (created_at r).
Definition set_completed_at (v : option N) (r : scan_row) : scan_row :=
  ScanRow (target_id r) (name r) (profile r) (status r) (started_at r) v
          (progress r) (current_task r) (config r) (error_message r)
          (checkpoint_data r) (is_resumed r) (llm_model_used r) (created_at r).
Definition set_progress (v : json) (r : scan_row) : scan_row :=
  ScanRow (target_id r) (name r) (profile r) (status r) (started_at r) (completed_at r)
          v (current_task r) (config r) (error_message r)
          (checkpoint_data r) (is_resumed r) (llm_model_used r) (created_at r).
Definition set_current_task (v : option string) (r : scan_row) : scan_row :=
  ScanRow (target_id r) (name r) (profile r) (status r) (started_at r) (completed_at r)
          (progress r) v (config r) (error_message r)
          (checkpoint_data r) (is_resumed r) (llm_model_used r) (created_at r).
Definition set_checkpoint_data (v : option text) (r : scan_row) : scan_row :=
  ScanRow (target_id r) (name r) (profile r) (status r) (started_at r) (completed_at r)
          (progress r) (current_task r) (config r) (error_message r)
          v (is_resumed r) (llm_model_used r) (created_at r).

(** A row as [create_scan] inserts it. *)
Definition new_row (target : string) (now : N) : scan_row :=
  ScanRow target "Scan" "normal" "pending" None None (JDict []) None (JDict [])
          None None false None now.

Definition get_scan (db : scans) (scan_id : string) : option scan_row := db !! scan_id.

(** [_is_scan_started]: [row and row['started_at'] is not None] *)
Definition is_scan_started (db : scans) (scan_id : string) : bool :=
  match db !! scan_id with
  | Some r => match started_at r with Some _ => true | None => false end
  | None => false
  end.

Definition progress_json (p : list (string * Z)) : json :=
  JDict (map (fun kv => (fst kv, JInt (snd kv))) p).

(** The SET clauses [update_scan_status] collects, applied to a row. *)
Definition status_updates (now : N) (started : bool) (new_status : string)
    (task : option string) (prog : option (list (string * Z))) (r : scan_row) : scan_row :=
  let r1 := set_status new_status r in
  let r2 := match task with
            | Some t => if String.eqb t "" then r1 else set_current_task (Some t) r1
            | None => r1
            end in
  let r3 := match prog with
            | Some (kv :: p) => set_progress (progress_json (kv :: p)) r2
            | _ => r2
            end in
  if String.eqb new_status "running" && negb started then set_started_at (Some now) r3
  else if String.eqb new_status "completed" || String.eqb new_status "failed"
       then set_completed_at (Some now) r3
  else r3.

(** [update_scan_status(scan_id, status, current_task=None, progress=None)];
    [now] is CURRENT_TIMESTAMP.  The UPDATE touches the row whose id is
    [scan_id], if there is one. *)
Definition update_scan_status (now : N) (db : scans) (scan_id new_status : string)
    (task : option string) (prog : option (list (string * Z))) : scans :=
  let started := is_scan_started db scan_id in
  match db !! scan_id with
  | Some r => <[scan_id := status_updates now started new_status task prog r]> db
  | None => db
  end.

(** [save_checkpoint]: UPDATE scans SET checkpoint_data = json.dumps(...) *)
Definition save_checkpoint (db : scans) (scan_id : string) (checkpoint : json) : scans :=
  match db !! scan_id with
  | Some r => <[scan_id := set_checkpoint_data (Some (Encoded checkpoint)) r]> db
  | None => db
  end.

(** The columns [update_scan_status] never names. *)
Definition same_untouched_columns (r r' : scan_row) : Prop :=
  target_id r' = target_id r /\ name r' = name r /\ profile r' = profile r /\
  config r' = config r /\ error_message r' = error_message r /\
  checkpoint_data r' = checkpoint_data r /\ is_resumed r' = is_resumed r /\
  llm_model_used r' = llm_model_used r /\ created_at r' = created_at r.

(** The checkpoint blob of every row. *)
Definition checkpoints (db : scans) : gmap string (option text) := checkpoint_data <$> db.

End DB.

(** ** core/state_checkpoint.py *)

(** What persists across a process restart: the files of the state
    directory and the scans table. *)
Record store := Store {
  files : gmap string text;
  scans : gmap string DB.scan_row
}.

(** How a write to the state file can go: [open(..., 'w')] raises and the
    file is untouched, or the file is opened (and so truncated) and the
    write raises after [partial] has reached it, or the write succeeds. *)
Inductive file_fault : Type :=
  | FileOk
  | OpenFails
  | WriteFails (partial : string).

(** Two stores hold the same checkpoints: the same files and, row by row,
    the same blob. *)
Definition same_checkpoints (st st' : store) : Prop :=
  files st' = files st /\ DB.checkpoints (scans st') = DB.checkpoints (scans st).

Module StateCheckpoint.

Definition state_file (scan_id : string) : string :=
  "data/state/" ++ scan_id ++ ".json".

(** [_generate_checksum]: the first 16 hexadecimal digits of the SHA-256
    of [json.dumps(data, sort_keys=True, default=str)]. *)
Definition generate_checksum (data : json) : string :=
  Str.take 16 (SHA256.hexdigest (Str.bytes_of_string (Json.dumps data))).

(** [_verify_checksum] *)
Definition verify_checksum (state : json) : result bool :=
  match state with
  | JDict d =>
      let stored_checksum := default JNull (Json.lookup "checksum" d) in
      if negb (Json.truthy stored_checksum) then Ok false
      else
        let data := Json.without "checksum" d in
        let calculated := generate_checksum (JDict data) in
        Ok (Json.is_str calculated stored_checksum)
  | _ => Raise AttributeError
  end.

(** [_serialize_results]: values that are not list, dict, str, int, float,
    bool or None are replaced by their [str]; every JSON value is one of
    these. *)
Definition serialize_value (v : json) : json :=
  match v with
  | JList _ | JDict _ | JStr _ | JInt _ | JBool _ | JNull => v
  end.

Definition serialize_results (results : json) : result json :=
  match results with
  | JDict d => Ok (JDict (map (fun kv => (fst kv, serialize_value (snd kv))) d))
  | _ => Raise AttributeError
  end.

(** [_deserialize_results] *)
Definition deserialize_results (state : list (string * json)) : json :=
  JDict [ ("can_resume", JBool true);
          ("current_module", default JNull (Json.lookup "current_module" state));
          ("completed_modules", default (JList []) (Json.lookup "completed_modules" state));
          ("pending_modules", default (JList []) (Json.lookup "pending_modules" state));
          ("module_state", default (JDict []) (Json.lookup "module_state" state));
          ("results_cache", default (JDict []) (Json.lookup "results_cache" state)) ].

(** The dictionary [save_state] builds; [timestamp] is
    [datetime.utcnow().isoformat()]. *)
Definition checkpoint (scan_id timestamp current_module : string)
    (completed_modules pending_modules : list string)
    (results_cache : json) (module_state : option json) : result json :=
  serialized ← serialize_results results_cache;
  Ok (JDict [ ("scan_id", JStr scan_id);
              ("timestamp", JStr timestamp);
              ("current_module", JStr current_module);
              ("completed_modules", JList (map JStr completed_modules));
              ("pending_modules", JList (map JStr pending_modules));
              ("module_state",
                 match module_state with
                 | Some m => if Json.truthy m then m else JDict []
                 | None => JDict []
                 end);
              ("results_cache", serialized);
              ("checksum", JStr (generate_checksum results_cache)) ]).

Definition write_file (ff : file_fault) (path : string) (content : json)
    (fs : gmap string text) : gmap string text :=
  match ff with
  | FileOk => <[path := Encoded content]> fs
  | OpenFails => fs
  | WriteFails partial => <[path := Garbled partial]> fs
  end.

(** [save_state]: both writes sit in their own [try ... except Exception]. *)
Definition save_state (ff : file_fault) (db_fails : bool) (timestamp : string)
    (st : store) (scan_id current_module : string)
    (completed_modules pending_modules : list string)
    (results_cache : json) (module_state : option json) : result store :=
  cp ← checkpoint scan_id timestamp current_module completed_modules
         pending_modules results_cache module_state;
  let fs' := write_file ff (state_file scan_id) cp (files st) in
  let db' := if db_fails then scans st else DB.save_checkpoint (scans st) scan_id cp in
  Ok (Store fs' db').

(** One backend of [load_state]: parse, verify, deserialize; [None] when
    the text is rejected (an exception or a checksum mismatch). *)
Definition load_text (t : text) : option json :=
  match json_load t with
  | Ok state =>
      match verify_checksum state, state with
      | Ok true, JDict d => Some (deserialize_results d)
      | _, _ => None
      end
  | Raise _ => None
  end.

Definition load_from_db (st : store) (scan_id : string) : option json :=
  match DB.get_scan (scans st) scan_id with
  | Some row =>
      match DB.checkpoint_data row with
      | Some t => if text_nonempty t then load_text t else None
      | None => None
      end
  | None => None
  end.

(** [load_state]: the file first, the row as a fallback. *)
Definition load_state (st : store) (scan_id : string) : option json :=
  match files st !! state_file scan_id with
  | Some t =>
      match load_text t with
      | Some r => Some r
      | None => load_from_db st scan_id
      end
  | None => load_from_db st scan_id
  end.

(** [clear_state]: unlink the state file if it exists. *)
Definition clear_state (unlink_fails : bool) (st : store) (scan_id : string) : store :=
  match files st !! state_file scan_id with
  | Some _ =>
      if unlink_fails then st
      else Store (delete (state_file scan_id) (files st)) (scans st)
  | None => st
  end.

End StateCheckpoint.

(** ** Decoded text: bytes.decode and str.rstrip *)

Module Unicode.
Local Open Scope N_scope.

(** A Python [str]: its code points. *)
Definition str : Type := list N.

(** The [str] of an ASCII literal. *)
Definition text (s : string) : str := map N_of_ascii (list_ascii_of_string s).

Definition continuation (b : N) : bool := (128 <=? b) && (b <? 192).

(** U+FFFD, what [errors='replace'] writes for bytes that are no UTF-8. *)
Definition replacement : N := 65533.

(** One step of the UTF-8 decoder at the lead byte [ch], [rest] being the
    bytes after it: the code point it writes, and how many bytes of
    [rest] it consumes.  A sequence that breaks off is replaced as far as
    it was well formed, and decoding goes on at the byte that broke it. *)
Definition decode_step (ch : N) (rest : list N) : N * nat :=
  if ch <? 128 then (ch, 0%nat)
  else if ch <? 194 then (replacement, 0%nat)
  else if ch <? 224 then
    match rest with
    | [] => (replacement, 0%nat)
    | ch2 :: _ =>
        if continuation ch2 then ((ch mod 32) * 64 + ch2 mod 64, 1%nat)
        else (replacement, 0%nat)
    end
  else if ch <? 240 then
    match rest with
    | [] => (replacement, 0%nat)
    | ch2 :: rest2 =>
        if negb (continuation ch2) || (if ch2 <? 160 then ch =? 224 else ch =? 237)
        then (replacement, 0%nat)
        else
          match rest2 with
          | [] => (replacement, 1%nat)
          | ch3 :: _ =>
              if continuation ch3
              then (((ch mod 16) * 64 + ch2 mod 64) * 64 + ch3 mod 64, 2%nat)
              else (replacement, 1%nat)
          end
    end
  else if ch <? 245 then
    match rest with
    | [] => (replacement, 0%nat)
    | ch2 :: rest2 =>
        if negb (continuation ch2) || (if ch2 <? 144 then ch =? 240 else ch =? 244)
        then (replacement, 0%nat)
        else
          match rest2 with
          | [] => (replacement, 1%nat)
          | ch3 :: rest3 =>
              if negb (continuation ch3) then (replacement, 1%nat)
              else
                match rest3 with
                | [] => (replacement, 2%nat)
                | ch4 :: _ =>
                    if continuation ch4
                    then ((((ch mod 8) * 64 + ch2 mod 64) * 64 + ch3 mod 64) * 64
                          + ch4 mod 64, 3%nat)
                    else (replacement, 2%nat)
                end
          end
    end
  else (replacement, 0%nat).

Fixpoint decode_bytes (fuel : nat) (bs : list N) : str :=
  match fuel, bs with
  | S k, ch :: rest =>
      let (cp, n) := decode_step ch rest in cp :: decode_bytes k (skipn n rest)
  | _, _ => []
  end.

(** [bytes.decode('utf-8', errors='replace')] *)
Definition decode (raw : string) : str :=
  let bs := map N_of_ascii (list_ascii_of_string raw) in decode_bytes (List.length bs) bs.

(** [str.isspace] of one character. *)
Definition is_space (c : N) : bool :=
  (9 <=? c) && (c <=? 13) || (28 <=? c) && (c <=? 32) || (c =? 133) || (c =? 160)
  || (c =? 5760) || (8192 <=? c) && (c <=? 8202) || (c =? 8232) || (c =? 8233)
  || (c =? 8239) || (c =? 8287) || (c =? 12288).

(** [str.rstrip()] *)
Fixpoint rstrip (s : str) : str :=
  match s with
  | [] => []
  | c :: r =>
      match rstrip r with
      | [] => if is_space c then [] else [c]
      | r' => c :: r'
      end
  end.

(** ['\n'.join(lines)] *)
Fixpoint join_lines (ls : list str) : str :=
  match ls with
  | [] => []
  | [l] => l
  | l :: rest => (l ++ 10 :: join_lines rest)%list
  end.

End Unicode.

(** ** core/subprocess_manager.py *)

Module SubprocessManager.
Local Open Scope N_scope.

(** The two flags of a [SubprocessManager]. *)
Record flags := Flags { paused : bool; stopped : bool }.

Inductive command := PauseAll | ResumeAll | StopAll.

Definition pause_all (f : flags) : flags := Flags true (stopped f).
Definition resume_all (f : flags) : flags := Flags false (stopped f).
Definition stop_all (f : flags) : flags := Flags (paused f) true.

Definition apply (c : command) (f : flags) : flags :=
  match c with
  | PauseAll => pause_all f
  | ResumeAll => resume_all f
  | StopAll => stop_all f
  end.

(** The flags a coroutine sees when it wakes up at [t]: the commands of
    the timeline (in time order) issued up to [t] have been applied. *)
Fixpoint flags_at (f0 : flags) (cmds : list (N * command)) (t : N) : flags :=
  match cmds with
  | [] => f0
  | (tc, c) :: rest => if tc <=? t then flags_at (apply c f0) rest t else f0
  end.

Inductive signal := SIGTERM | SIGKILL.
Inductive stream := Stdout | Stderr.

(** What can be observed of a run, with the time it happens at: a line
    is appended, a coroutine sleeps, [proc.terminate()] or [proc.kill()]
    is called. *)
Inductive event :=
  | Line (t : N) (from : stream) (decoded : Unicode.str)
  | Sleep (t : N) (ms : N)
  | Signal (t : N) (sg : signal).

Definition time_of (ev : event) : N :=
  match ev with
  | Line t _ _ => t
  | Sleep t _ => t
  | Signal t _ => t
  end.

(** The events up to [t]. *)
Definition upto (t : N) (evs : list event) : list event :=
  List.filter (fun ev => time_of ev <=? t) evs.

(** [asyncio.streams._DEFAULT_LIMIT], the limit of a [StreamReader]. *)
Definition limit : N := 65536.

Definition is_newline (a : ascii) : bool := N_of_ascii a =? 10.

(** The number of bytes before the first newline, all of them when there
    is none. *)
Fixpoint body_length (raw : string) : N :=
  match raw with
  | EmptyString => 0
  | String a r => if is_newline a then 0 else 1 + body_length r
  end.

Fixpoint has_newline (raw : string) : bool :=
  match raw with
  | EmptyString => false
  | String a r => is_newline a || has_newline r
  end.

(** [await stream.readline()] when [raw] is in the buffer: the bytes up
    to and with the next newline, or what is left at the end of the
    file; [ValueError] when the limit is overrun. *)
Definition readline (raw : string) : result string :=
  if limit <? body_length raw
  then Raise (ValueError
                (if has_newline raw
                 then "Separator is found, but chunk is longer than limit"
                 else "Separator is not found, and chunk exceed the limit"))
  else Ok raw.

(** The child as the pipes show it: whether it can be spawned and the
    time [create_subprocess_exec] takes; for each stream the bytes each
    [readline] finds (never none: that is the end of the file), with the
    time they are in the buffer from, and the time the stream reaches end
    of file; the exit status with the time [proc.wait()] returns.  What
    is in a buffer does not depend on when it is read (the output waiting
    to be read stays below the size at which the transport stops
    reading). *)
Record child := Child {
  spawn_ok : bool;
  spawn_time : N;
  stdout_lines : list (N * string);
  stdout_eof : N;
  stderr_lines : list (N * string);
  stderr_eof : N;
  exit_at : N;
  exit_code : Z
}.

(** The time from which the transport of the child is finished: the
    child has exited and both pipes have reached end of file.  From then
    on [proc.terminate()] and [proc.kill()] raise [ProcessLookupError]. *)
Definition gone (c : child) : N :=
  N.max (exit_at c) (N.max (stdout_eof c) (stderr_eof c)).

(** How a reader coroutine ends: it returns at [t], [wait_for] cancels
    it at the deadline, or it raises at [t]. *)
Inductive ending :=
  | Done (t : N)
  | Cancelled
  | Threw (e : exn) (t : N).

(** A reader coroutine when [gather] is over: the lines appended to its
    list, what it did, and how it ended. *)
Record reader := Reader {
  lines : list Unicode.str;
  events : list event;
  finished : ending
}.

Definition and_then (s : Unicode.str) (evs : list event) (r : reader) : reader :=
  Reader (s :: lines r) (evs ++ events r) (finished r).

Section Run.
Variable f0 : flags.
Variable cmds : list (N * command).
Variable deadline : N.
Variable gone_at : N.

(** [while self._paused and not self._stopped: await asyncio.sleep(0.1)],
    entered at [t]; the result is the time the loop is left at, or
    [None] when the deadline passes first. *)
Fixpoint pause_loop (fuel : nat) (t : N) : list event * option N :=
  let f := flags_at f0 cmds t in
  if paused f && negb (stopped f) then
    match fuel with
    | O => ([], None)
    | S k =>
        if deadline <? t + 100 then ([Sleep t 100], None)
        else let (evs, w) := pause_loop k (t + 100) in (Sleep t 100 :: evs, w)
    end
  else ([], Some t).

(** Enough polls to reach the deadline from any time. *)
Definition poll_fuel : nat := S (N.to_nat (deadline / 100)).

(** [proc.terminate()] at [t], in the reader. *)
Definition terminate (t : N) : ending :=
  if gone_at <=? t then Threw ProcessLookupError t else Done t.

(** [read_stream], entered at [t]. *)
Fixpoint read_stream (from : stream) (ls : list (N * string)) (eof : N)
    (t : N) : reader :=
  match ls with
  | [] =>
      let t1 := N.max t eof in
      if deadline <? t1 then Reader [] [] Cancelled else Reader [] [] (Done t1)
  | (arrival, raw) :: rest =>
      let t1 := N.max t arrival in
      if deadline <? t1 then Reader [] [] Cancelled
      else
        match readline raw with
        | Raise e => Reader [] [] (Threw e t1)
        | Ok line =>
            let decoded := Unicode.rstrip (Unicode.decode line) in
            if stopped (flags_at f0 cmds t1)
            then Reader [decoded] [Line t1 from decoded; Signal t1 SIGTERM] (terminate t1)
            else
              match pause_loop poll_fuel t1 with
              | (evs, Some t2) =>
                  and_then decoded (Line t1 from decoded :: evs) (read_stream from rest eof t2)
              | (evs, None) => Reader [decoded] (Line t1 from decoded :: evs) Cancelled
              end
        end
  end.
End Run.

Record ProcessResult := Result {
  returncode : Z;
  stdout : Unicode.str;
  stderr : Unicode.str;
  duration : N;
  command_line : string
}.

(** [stop_all] calls [proc.terminate()] on the processes registered in
    [active_processes] and goes on when the call raises; a run is
    registered from spawn to return when it was given a task id. *)
Definition stop_all_signals (cmds : list (N * command)) (task_id : option string)
    (start finish : N) : list event :=
  match task_id with
  | Some tid =>
      if String.eqb tid "" then []
      else
        flat_map (fun tc => match tc with
                            | (t, StopAll) =>
                                if (start <=? t) && (t <=? finish) then [Signal t SIGTERM] else []
                            | _ => []
                            end) cmds
  | None => []
  end.

(** How [await asyncio.wait_for(asyncio.gather(...), timeout)] ends:
    both readers are done at [t], the timeout expires first, or a reader
    raises at [t] (the first one to raise; the other reader is not
    cancelled). *)
Inductive gathered :=
  | Both (t : N)
  | TimedOut
  | Failed (e : exn) (t : N).

Definition gather_end (out err : ending) : gathered :=
  match out, err with
  | Threw e1 t1, Threw e2 t2 => if t2 <? t1 then Failed e2 t2 else Failed e1 t1
  | Threw e t, _ => Failed e t
  | _, Threw e t => Failed e t
  | Done t1, Done t2 => Both (N.max t1 t2)
  | _, _ => TimedOut
  end.

(** The two readers under [gather], entered at [start]. *)
Definition gather (f0 : flags) (cmds : list (N * command)) (start deadline : N) (c : child)
    : reader * reader * gathered :=
  let out := read_stream f0 cmds deadline (gone c) Stdout (stdout_lines c) (stdout_eof c) start in
  let err := read_stream f0 cmds deadline (gone c) Stderr (stderr_lines c) (stderr_eof c) start in
  (out, err, gather_end (finished out) (finished err)).

(** The lines of a reader joined by newlines. *)
Definition joined (r : reader) : Unicode.str := Unicode.join_lines (lines r).

(** The calls of [terminate] and [kill] among the events of a run. *)
Definition signals (evs : list event) : list (N * signal) :=
  flat_map (fun ev => match ev with Signal t sg => [(t, sg)] | _ => [] end) evs.

(** [run(command, timeout, ..., task_id)], called at [start]; [timeout] is
    in seconds.  The result, or the exception, comes with the events of
    the call and the time the call ends at. *)
Definition run (f0 : flags) (cmds : list (N * command)) (start : N)
    (command_line : string) (timeout : N) (task_id : option string) (c : child)
    : result ProcessResult * list event * N :=
  let spawned := start + spawn_time c in
  if negb (spawn_ok c) then (Raise OSError, [], spawned)
  else
    let deadline := spawned + 1000 * timeout in
    let '(out, err, done) := gather f0 cmds spawned deadline c in
    let evs := (events out ++ events err)%list in
    match done with
    | Both t0 =>
        let t := N.max t0 (exit_at c) in
        (Ok (Result (exit_code c) (joined out) (joined err) (t - start) command_line),
         (evs ++ stop_all_signals cmds task_id spawned t)%list, t)
    | TimedOut =>
        let evs := (evs ++ stop_all_signals cmds task_id spawned deadline
                        ++ [Signal deadline SIGKILL])%list in
        if gone c <=? deadline then (Raise ProcessLookupError, evs, deadline)
        else (Ok (Result (-1)%Z (joined out) (joined err) (deadline - start) command_line),
              evs, deadline)
    | Failed e t =>
        (Raise e, (upto t evs ++ stop_all_signals cmds task_id spawned t)%list, t)
    end.

(** Nobody stops the supervisor: its stop flag is clear and no
    [stop_all] is to come. *)
Definition never_stopped (f0 : flags) (cmds : list (N * command)) : Prop :=
  stopped f0 = false /\ Forall (fun tc => snd tc <> StopAll) cmds.





(** The sleeps among the events of a run. *)
Definition sleeps (evs : list event) : list (N * N) :=
  flat_map (fun ev => match ev with Sleep t ms => [(t, ms)] | _ => [] end) evs.

(** The polls of a reader that is held from [t] for [k] polls. *)
Definition polls (t : N) (k : nat) : list event :=
  map (fun j => Sleep (t + 100 * N.of_nat j) 100) (seq 0 k).


End SubprocessManager.

(** ** api/tasks.py: tasks and the queue's public operations *)

Inductive TaskStatus := PENDING | RUNNING | PAUSED | COMPLETED | FAILED | CANCELLED.

Record ScanTask := Task {
  scan_id : string;
  target_id : string;
  config : list (string * json);
  status : TaskStatus;
  created_at : N;
  started_at : option N;
  completed_at : option N;
  current_module : option string;
  progress : list (string * Z);
  error_message : option string
}.

Definition new_task (scan target : string) (cfg : list (string * json)) (now : N)
    : ScanTask :=
  Task scan target cfg PENDING now None None None [] None.

Definition set_status (v : TaskStatus) (t : ScanTask) : ScanTask :=
  Task (scan_id t) (target_id t) (config t) v (created_at t) (started_at t)
       (completed_at t) (current_module t) (progress t) (error_message t).
Definition set_started_at (v : option N) (t : ScanTask) : ScanTask :=
  Task (scan_id t) (target_id t) (config t) (status t) (created_at t) v
       (completed_at t) (current_module t) (progress t) (error_message t).
Definition set_completed_at (v : option N) (t : ScanTask) : ScanTask :=
  Task (scan_id t) (target_id t) (config t) (status t) (created_at t) (started_at t)
       v (current_module t) (progress t) (error_message t).
Definition set_current_module (v : option string) (t : ScanTask) : ScanTask :=
  Task (scan_id t) (target_id t) (config t) (status t) (created_at t) (started_at t)
       (completed_at t) v (progress t) (error_message t).
Definition set_progress (v : list (string * Z)) (t : ScanTask) : ScanTask :=
  Task (scan_id t) (target_id t) (config t) (status t) (created_at t) (started_at t)
       (completed_at t) (current_module t) v (error_message t).
Definition set_error_message (v : option string) (t : ScanTask) : ScanTask :=
  Task (scan_id t) (target_id t) (config t) (status t) (created_at t) (started_at t)
       (completed_at t) (current_module t) (progress t) v.

(** [progress[k] = v] *)
Fixpoint progress_set (k : string) (v : Z) (p : list (string * Z)) : list (string * Z) :=
  match p with
  | [] => [(k, v)]
  | (k', v') :: rest =>
      if String.eqb k k' then (k, v) :: rest else (k', v') :: progress_set k v rest
  end.

(** The state of a [TaskQueue] and of what it shares with its callers.
    Task objects live in [heap]; the queue, the two maps and
    [_current_task] hold references to them. *)
Record world := World {
  heap : gmap nat ScanTask;
  queue : list nat;
  active_tasks : gmap string nat;
  paused_tasks : gmap string nat;
  current_task : option nat;
  pause_event : bool;
  disk : store
}.

Definition set_heap (v : gmap nat ScanTask) (w : world) : world :=
  World v (queue w) (active_tasks w) (paused_tasks w) (current_task w)
        (pause_event w) (disk w).
Definition set_queue (v : list nat) (w : world) : world :=
  World (heap w) v (active_tasks w) (paused_tasks w) (current_task w)
        (pause_event w) (disk w).
Definition set_active_tasks (v : gmap string nat) (w : world) : world :=
  World (heap w) (queue w) v (paused_tasks w) (current_task w) (pause_event w) (disk w).
Definition set_paused_tasks (v : gmap string nat) (w : world) : world :=
  World (heap w) (queue w) (active_tasks w) v (current_task w) (pause_event w) (disk w).
Definition set_current_task (v : option nat) (w : world) : world :=
  World (heap w) (queue w) (active_tasks w) (paused_tasks w) v (pause_event w) (disk w).
Definition set_pause_event (v : bool) (w : world) : world :=
  World (heap w) (queue w) (active_tasks w) (paused_tasks w) (current_task w) v (disk w).
Definition set_disk (v : store) (w : world) : world :=
  World (heap w) (queue w) (active_tasks w) (paused_tasks w) (current_task w)
        (pause_event w) v.

(** An attribute write through a reference. *)
Definition update_task (l : nat) (f : ScanTask -> ScanTask) (w : world) : world :=
  set_heap (alter f l (heap w)) w.

(** [self.db.update_scan_status(...)] at time [now]. *)
Definition db_update_scan_status (now : N) (scan new_status : string)
    (task : option string) (prog : option (list (string * Z))) (w : world) : world :=
  set_disk (Store (files (disk w))
                  (DB.update_scan_status now (scans (disk w)) scan new_status task prog)) w.

Definition empty_world : world :=
  World ∅ [] ∅ ∅ None true (Store ∅ ∅).

Module TaskQueue.

(** [self._current_task and self._current_task.scan_id == scan_id] *)
Definition current_is (scan : string) (w : world) : bool :=
  match current_task w with
  | Some l => match heap w !! l with
              | Some t => String.eqb (scan_id t) scan
              | None => false
              end
  | None => false
  end.

(** [add_task(task)], the task object being at [l]. *)
Definition add_task (now : N) (l : nat) (w : world) : world :=
  match heap w !! l with
  | Some t =>
      let w1 := set_queue (queue w ++ [l])%list w in
      let w2 := set_active_tasks (<[scan_id t := l]> (active_tasks w1)) w1 in
      db_update_scan_status now (scan_id t) "pending" None None w2
  | None => w
  end.

(** [pause_task(scan_id)] *)
Definition pause_task (scan : string) (w : world) : world :=
  match active_tasks w !! scan with
  | Some l =>
      let w1 := update_task l (set_status PAUSED) w in
      let w2 := set_paused_tasks (<[scan := l]> (paused_tasks w1)) w1 in
      if current_is scan w2 then set_pause_event false w2 else w2
  | None => w
  end.

(** [resume_task(scan_id)] *)
Definition resume_task (scan : string) (w : world) : world :=
  match paused_tasks w !! scan with
  | Some l =>
      let w1 := set_paused_tasks (delete scan (paused_tasks w)) w in
      let w2 := update_task l (set_status RUNNING) w1 in
      let w3 := set_active_tasks (<[scan := l]> (active_tasks w2)) w2 in
      set_pause_event true w3
  | None => w
  end.

(** [stop_task(scan_id)] *)
Definition stop_task (scan : string) (w : world) : world :=
  match active_tasks w !! scan with
  | Some l =>
      let w1 := update_task l (set_status CANCELLED) w in
      if current_is scan w1 then set_current_task None w1 else w1
  | None => w
  end.

(** The public operations, as commands that arrive over time. *)
Inductive command :=
  | AddTask (l : nat)
  | PauseTask (scan : string)
  | ResumeTask (scan : string)
  | StopTask (scan : string).

Definition apply (now : N) (c : command) (w : world) : world :=
  match c with
  | AddTask l => add_task now l w
  | PauseTask s => pause_task s w
  | ResumeTask s => resume_task s w
  | StopTask s => stop_task s w
  end.

End TaskQueue.

(** ** core/scanner_engine.py *)

Module ScannerEngine.
Local Open Scope N_scope.

Definition MODULE_ORDER : list string :=
  [ "subdomain_enum"; "dns_resolution"; "http_probe"; "port_scan";
    "wayback_urls"; "js_analysis"; "gf_patterns"; "fuzzing"; "nuclei_scan" ].

(** The attributes of a [ScannerEngine] that change or are read during a
    run; [task] is the reference to the task object it was built with,
    [scan], [target] and [conf] are [task.scan_id], [task.target_id] and
    [task.config] as read by [__init__]. *)
Record engine := Engine {
  task : nat;
  scan : string;
  target : string;
  conf : list (string * json);
  subprocess_mgr : SubprocessManager.flags;
  results_cache : json;
  _paused : bool;
  _stopped : bool
}.

Definition init (l : nat) (t : ScanTask) : engine :=
  Engine l (scan_id t) (target_id t) (config t)
         (SubprocessManager.Flags false false) (JDict []) false false.

Definition set_results_cache (v : json) (e : engine) : engine :=
  Engine (task e) (scan e) (target e) (conf e) (subprocess_mgr e) v (_paused e) (_stopped e).

(** [pause()], [resume()] and [stop()] *)
Definition pause (e : engine) : engine :=
  Engine (task e) (scan e) (target e) (conf e)
         (SubprocessManager.pause_all (subprocess_mgr e)) (results_cache e)
         true (_stopped e).
Definition resume (e : engine) : engine :=
  Engine (task e) (scan e) (target e) (conf e)
         (SubprocessManager.resume_all (subprocess_mgr e)) (results_cache e)
         false (_stopped e).
Definition stop (e : engine) : engine :=
  Engine (task e) (scan e) (target e) (conf e)
         (SubprocessManager.stop_all (subprocess_mgr e)) (results_cache e)
         (_paused e) true.

(** [list.index]: the position of the first element equal to [x]. *)
Fixpoint index_of (x : json) (l : list string) : option nat :=
  match l with
  | [] => None
  | y :: rest => if Json.is_str y x then Some 0%nat else S <$> index_of x rest
  end.

(** [_get_module_index(module_name)] *)
Definition _get_module_index (module_name : json) : nat :=
  if negb (Json.truthy module_name) then 0%nat
  else match index_of module_name MODULE_ORDER with
       | Some i => i
       | None => 0%nat
       end.

(** What other coroutines may do while the engine is suspended: the
    queue's public operations, and the three methods of the engine. *)
Inductive command :=
  | Queue (c : TaskQueue.command)
  | Pause
  | Resume
  | Stop.

Definition apply (now : N) (c : command) (ew : engine * world) : engine * world :=
  let (e, w) := ew in
  match c with
  | Queue qc => (e, TaskQueue.apply now qc w)
  | Pause => (pause e, w)
  | Resume => (resume e, w)
  | Stop => (stop e, w)
  end.

(** The part of a timeline the process supervisor of the engine sees. *)
Fixpoint supervisor_timeline (cmds : list (N * command))
    : list (N * SubprocessManager.command) :=
  match cmds with
  | [] => []
  | (t, Pause) :: rest => (t, SubprocessManager.PauseAll) :: supervisor_timeline rest
  | (t, Resume) :: rest => (t, SubprocessManager.ResumeAll) :: supervisor_timeline rest
  | (t, Stop) :: rest => (t, SubprocessManager.StopAll) :: supervisor_timeline rest
  | _ :: rest => supervisor_timeline rest
  end.

(** What a run leaves in the log. *)
Inductive entry :=
  | Began (t : N) (module_name : string)
  | Ended (t : N) (module_name : string)
  | Polled (t : N) (ms : N)
  | Issued (t : N) (c : command)
  | Cleared (t : N).

(** A run in progress: the time, the commands still to come (in time
    order), the engine, the shared state, and the log so far. *)
Record sim := Sim {
  clock : N;
  pending : list (N * command);
  eng : engine;
  w : world;
  log : list entry
}.

Definition note (x : entry) (s : sim) : sim :=
  Sim (clock s) (pending s) (eng s) (w s) (log s ++ [x]).
Definition with_world (f : world -> world) (s : sim) : sim :=
  Sim (clock s) (pending s) (eng s) (f (w s)) (log s).
Definition with_engine (f : engine -> engine) (s : sim) : sim :=
  Sim (clock s) (pending s) (f (eng s)) (w s) (log s).

(** Time passes until [t]: the commands issued up to [t] take effect. *)
Fixpoint deliver (t : N) (cmds : list (N * command)) (e : engine) (wd : world)
    (lg : list entry) : sim :=
  match cmds with
  | [] => Sim t [] e wd lg
  | (tc, c) :: rest =>
      if tc <=? t
      then let (e', wd') := apply tc c (e, wd) in deliver t rest e' wd' (lg ++ [Issued tc c])
      else Sim t cmds e wd lg
  end.

Definition advance (t : N) (s : sim) : sim :=
  deliver (N.max (clock s) t) (pending s) (eng s) (w s) (log s).

(** A scanner's [scan(target_id, scan_id, config, previous_results)],
    called at a given time with the supervisor's flags as they are then
    and the supervisor commands still to come; it returns or raises at the
    time it gives back, or the call never comes back ([None]). *)
Definition scanner : Type :=
  string -> string -> json -> json ->
  N -> SubprocessManager.flags -> list (N * SubprocessManager.command) ->
  option (N * result json).

(** What a run depends on besides the shared state: the scanners, how each
    checkpoint write goes (by stage), whether the unlink of the state file
    fails, and the text of [datetime.utcnow().isoformat()]. *)
Record env := Env {
  scanners : string -> option scanner;
  faults : string -> file_fault * bool;
  unlink_fails : bool;
  isoformat : N -> string
}.

(** [self.results_cache[module_name] = module_results] *)
Definition setitem (cache : json) (k : string) (v : json) : result json :=
  match cache with
  | JDict d => Ok (JDict (Json.set k v d))
  | _ => Raise TypeError
  end.

Definition task_progress (s : sim) : list (string * Z) :=
  match heap (w s) !! task (eng s) with
  | Some t => progress t
  | None => []
  end.

Definition stop_on_error (e : engine) : bool :=
  Json.truthy (default (JBool false) (Json.lookup "stop_on_error" (conf e))).

(** How [_run_module] ends: it returns, it raises, or it never ends
    because the call of the scanner never comes back. *)
Inductive stage_end :=
  | Proceeds
  | Raises (e : exn)
  | Blocks.

(** The [except Exception] clause of [_run_module]. *)
Definition module_failed (e : exn) (s : sim) : sim * stage_end :=
  if stop_on_error (eng s) then (s, Raises e) else (s, Proceeds).

(** [await scanner.scan(target_id=..., scan_id=..., config=...,
    previous_results=self.results_cache)] *)
Definition call_scanner (scanner_scan : scanner) (module_name : string) (s : sim)
    : option (N * result json) :=
  scanner_scan (target (eng s)) (scan (eng s))
    (default (JDict []) (Json.lookup module_name (conf (eng s))))
    (results_cache (eng s))
    (clock s) (subprocess_mgr (eng s)) (supervisor_timeline (pending s)).

(** The first lines of [_run_module]: the task says which stage runs,
    with progress 0, and the row is written. *)
Definition announce (module_name : string) (s : sim) : sim :=
  let l := task (eng s) in
  let s := with_world (update_task l (set_current_module (Some module_name))) s in
  let s := with_world (update_task l (fun t =>
             set_progress (progress_set module_name 0%Z (progress t)) t)) s in
  with_world (db_update_scan_status (clock s) (scan (eng s)) "running"
                (Some ("Running " ++ module_name)) (Some (task_progress s))) s.

(** The lines of [_run_module] after the scanner has returned
    [module_results]: cache them, write progress 100, save the
    checkpoint. *)
Definition complete (E : env) (module_name : string) (index : nat)
    (module_results : json) (s : sim) : sim * stage_end :=
  match setitem (results_cache (eng s)) module_name module_results with
  | Raise e => module_failed e s
  | Ok cache =>
      let s := with_engine (set_results_cache cache) s in
      let s := with_world (update_task (task (eng s)) (fun t =>
                 set_progress (progress_set module_name 100%Z (progress t)) t)) s in
      let s := with_world (db_update_scan_status (clock s) (scan (eng s))
                 "running" None (Some (task_progress s))) s in
      match StateCheckpoint.save_state
              (fst (faults E module_name)) (snd (faults E module_name))
              (isoformat E (clock s)) (disk (w s)) (scan (eng s)) module_name
              (firstn (index + 1)%nat MODULE_ORDER) (skipn (index + 1)%nat MODULE_ORDER)
              (results_cache (eng s)) None with
      | Raise e => module_failed e s
      | Ok st => (with_world (set_disk st) s, Proceeds)
      end
  end.

(** [_run_module(module_name, index)] *)
Definition _run_module (E : env) (module_name : string) (index : nat) (s : sim)
    : sim * stage_end :=
  let s := announce module_name s in
  match scanners E module_name with
  | None => (s, Proceeds)
  | Some scanner_scan =>
      let s := note (Began (clock s) module_name) s in
      match call_scanner scanner_scan module_name s with
      | None => (s, Blocks)
      | Some (t_end, r) =>
          let s := note (Ended (N.max (clock s) t_end) module_name) (advance t_end s) in
          match r with
          | Raise e => module_failed e s
          | Ok module_results => complete E module_name index module_results s
          end
      end
  end.

(** One [await asyncio.sleep(1)] of [_wait_for_resume]. *)
Definition poll (s : sim) : sim :=
  advance (clock s + 1000) (note (Polled (clock s) 1000) s).

(** [_wait_for_resume]: [while self._paused and not self._stopped:
    await asyncio.sleep(1)].  [None] when the polls run out. *)
Fixpoint _wait_for_resume (polls : nat) (s : sim) : option sim :=
  if _paused (eng s) && negb (_stopped (eng s)) then
    match polls with
    | O => None
    | S k => _wait_for_resume k (poll s)
    end
  else Some s.

(** Polls enough to see every pending command delivered. *)
Definition last_time (cmds : list (N * command)) : N :=
  fold_right (fun tc acc => N.max (fst tc) acc) 0 cmds.

Definition enough_polls (s : sim) : nat :=
  S (S (N.to_nat ((last_time (pending s) - clock s) / 1000))).

(** How a coroutine ends: it returns, it raises, or it waits for ever. *)
Inductive outcome :=
  | Returned (s : sim)
  | Raised (e : exn) (s : sim)
  | Waiting (s : sim).

(** The [for] loop of [run] over the stages still to execute. *)
Fixpoint stage_loop (E : env) (modules : list string) (i : nat) (s : sim) : outcome :=
  match modules with
  | [] => Returned s
  | module_name :: rest =>
      if _stopped (eng s) then Returned s
      else
        match (if _paused (eng s) then _wait_for_resume (enough_polls s) s else Some s) with
        | None => Waiting s
        | Some s =>
            if _stopped (eng s) then Returned s
            else
              match _run_module E module_name i s with
              | (s, Proceeds) => stage_loop E rest (S i) s
              | (s, Raises e) => Raised e s
              | (s, Blocks) => Waiting s
              end
        end
  end.

(** The resume state [run] reads from a loaded checkpoint. *)
Definition resume_point (loaded : option json) (e : engine) : nat * engine :=
  match loaded with
  | Some (JDict r) =>
      if Json.truthy (JDict r) && Json.truthy (default JNull (Json.lookup "can_resume" r))
      then (_get_module_index (default JNull (Json.lookup "current_module" r)),
            set_results_cache (default (JDict []) (Json.lookup "results_cache" r)) e)
      else (0%nat, e)
  | _ => (0%nat, e)
  end.

(** [await self.state_checkpoint.clear_state()] *)
Definition clear_checkpoint (E : env) (s : sim) : sim :=
  note (Cleared (clock s))
    (with_world (fun wd => set_disk
       (StateCheckpoint.clear_state (unlink_fails E) (disk wd) (scan (eng s))) wd) s).

(** [run()] *)
Definition run (E : env) (s : sim) : outcome :=
  let resume_state := StateCheckpoint.load_state (disk (w s)) (scan (eng s)) in
  let (start_index, e) := resume_point resume_state (eng s) in
  let s := with_engine (fun _ => e) s in
  match stage_loop E (skipn start_index MODULE_ORDER) start_index s with
  | Returned s => if _stopped (eng s) then Returned s else Returned (clear_checkpoint E s)
  | other => other
  end.

(** A command that neither pauses nor stops the engine. *)
Definition harmless (c : command) : bool :=
  match c with
  | Pause | Stop => false
  | Queue _ | Resume => true
  end.

(** Nobody is to pause or stop the engine. *)
Definition undisturbed (cmds : list (N * command)) : Prop :=
  Forall (fun tc => harmless (snd tc) = true) cmds.

End ScannerEngine.

(** ** api/tasks.py: the worker *)

Module Worker.
Import ScannerEngine.
Local Open Scope N_scope.

(** [str(e)] *)
Definition str (e : exn) : string :=
  match e with
  | ScannerError msg => msg
  | TypeError => "TypeError"
  | AttributeError => "AttributeError"
  | JSONDecodeError => "JSONDecodeError"
  | OSError => "OSError"
  | DatabaseError => "DatabaseError"
  | ValueError msg => msg
  | ProcessLookupError => ""
  end.

(** A call of [update_scan_status] with keyword arguments: a keyword
    that is not a parameter of the function raises [TypeError] before
    the body runs. *)
Definition update_scan_status_parameters : list string :=
  ["scan_id"; "status"; "current_task"; "progress"].

Definition call_update_scan_status (now : N) (scan new_status : string)
    (keywords : list (string * string)) (wd : world) : result world :=
  if forallb (fun kw => existsb (String.eqb (fst kw)) update_scan_status_parameters)
       keywords
  then Ok (db_update_scan_status now scan new_status
             (snd <$> List.find (fun kw => String.eqb (fst kw) "current_task") keywords)
             None wd)
  else Raise TypeError.

(** The [finally] clause of [_execute_task]. *)
Definition release (scan : string) (wd : world) : world :=
  let wd := set_current_task None wd in
  match active_tasks wd !! scan with
  | Some _ => set_active_tasks (delete scan (active_tasks wd)) wd
  | None => wd
  end.

(** The first lines of [_execute_task], up to the engine it builds. *)
Definition boot (now : N) (timeline : list (N * command)) (l : nat) (t0 : ScanTask)
    (wd : world) : sim :=
  let wd := update_task l (set_status RUNNING) wd in
  let wd := update_task l (set_started_at (Some now)) wd in
  let wd := db_update_scan_status now (scan_id t0) "running" (Some "Initializing") None wd in
  Sim now timeline (init l t0) wd [].

(** [_execute_task(task)], [task] being the object [t0] at [l], entered
    at [now] with the commands of [timeline] still to come. *)
Definition _execute_task (E : env) (now : N) (timeline : list (N * command))
    (l : nat) (t0 : ScanTask) (wd : world) : outcome :=
  let id := scan_id t0 in
  match run E (boot now timeline l t0 wd) with
  | Returned s =>
      let s := with_world (update_task l (set_status COMPLETED)) s in
      let s := with_world (update_task l (set_completed_at (Some (clock s)))) s in
      let s := with_world (db_update_scan_status (clock s) id "completed" None None) s in
      Returned (with_world (release id) s)
  | Raised e s =>
      let s := with_world (update_task l (set_status FAILED)) s in
      let s := with_world (update_task l (set_error_message (Some (str e)))) s in
      match call_update_scan_status (clock s) id "failed"
              [("error_message", str e)] (w s) with
      | Ok wd' => Returned (with_world (fun _ => release id wd') s)
      | Raise e' => Raised e' (with_world (release id) s)
      end
  | Waiting s => Waiting s
  end.

(** One turn of [process_loop], entered at [now] with the pause event
    set: take the next task from the queue, drop it if it was cancelled,
    run it otherwise.  [None] when the queue is empty or the pause event
    is clear (the loop waits). *)
Definition process_next (E : env) (now : N) (timeline : list (N * command))
    (wd : world) : option outcome :=
  if negb (pause_event wd) then None
  else
    match queue wd with
    | [] => None
    | l :: rest =>
        let wd := set_queue rest wd in
        match heap wd !! l with
        | Some t =>
            match status t with
            | CANCELLED => Some (Returned (Sim now timeline (init l t) wd []))
            | _ => Some (_execute_task E now timeline l t (set_current_task (Some l) wd))
            end
        | None => None
        end
    end.

End Worker.

(** ** api/resilience_manager.py *)

Module ResilienceManager.
Local Open Scope N_scope.

Record manager := Manager {
  _offline_since : option N;
  _was_paused_by_outage : bool
}.

Definition _pause_threshold : N := 30.
Definition _resume_delay : N := 10.

(** What the monitor does to the scans, for the record. *)
Inductive action :=
  | AutoPaused (scan : string)
  | Slept (ms : N)
  | AutoResumed (scan : string).

(** [list(d.keys())] of one of the queue's maps. *)
Definition keys (m : gmap string nat) : list string := (map_to_list m).*1.

(** The body of the loop of [_auto_pause], and of [_auto_resume]. *)
Definition pause_step (now : N) (acc : world) (scan : string) : world :=
  db_update_scan_status now scan "paused" None None (TaskQueue.pause_task scan acc).

Definition resume_step (now : N) (acc : world) (scan : string) : world :=
  db_update_scan_status now scan "running" None None (TaskQueue.resume_task scan acc).

(** [_auto_pause]: pause every task of [active_tasks]. *)
Definition _auto_pause (now : N) (m : manager) (wd : world) : manager * world * list action :=
  let ids := keys (active_tasks wd) in
  (Manager (_offline_since m) true, fold_left (pause_step now) ids wd, map AutoPaused ids).

(** [_auto_resume]: resume every task of [paused_tasks]. *)
Definition _auto_resume (now : N) (m : manager) (wd : world) : manager * world * list action :=
  let ids := keys (paused_tasks wd) in
  (Manager (_offline_since m) false, fold_left (resume_step now) ids wd, map AutoResumed ids).

(** [trigger_pause(reason)] and [trigger_resume()]: the same loops,
    without the write to the row. *)
Definition trigger_pause (wd : world) : world :=
  fold_left (fun acc scan => TaskQueue.pause_task scan acc) (keys (active_tasks wd)) wd.

Definition trigger_resume (wd : world) : world :=
  fold_left (fun acc scan => TaskQueue.resume_task scan acc) (keys (paused_tasks wd)) wd.

(** The queue operations other coroutines issue up to [t]. *)
Fixpoint deliver (t : N) (cmds : list (N * TaskQueue.command)) (wd : world)
    : list (N * TaskQueue.command) * world :=
  match cmds with
  | [] => ([], wd)
  | (tc, c) :: rest =>
      if tc <=? t then deliver t rest (TaskQueue.apply tc c wd) else (cmds, wd)
  end.

(** [_handle_network_state(is_online)] at time [now]; the queue
    operations of [cmds] arrive while it sleeps. *)
Definition _handle_network_state (now : N) (is_online : bool)
    (cmds : list (N * TaskQueue.command)) (m : manager) (wd : world)
    : list (N * TaskQueue.command) * manager * world * list action :=
  if negb is_online then
    let since := default now (_offline_since m) in
    let m := Manager (Some since) (_was_paused_by_outage m) in
    if (1000 * _pause_threshold <=? now - since) && negb (_was_paused_by_outage m)
    then let '(m, wd, acts) := _auto_pause now m wd in (cmds, m, wd, acts)
    else (cmds, m, wd, [])
  else
    match _offline_since m with
    | Some _ =>
        let m := Manager None (_was_paused_by_outage m) in
        if _was_paused_by_outage m then
          let woke := now + 1000 * _resume_delay in
          let (cmds, wd) := deliver woke cmds wd in
          let '(m, wd, acts) := _auto_resume woke m wd in
          (cmds, m, wd, Slept (1000 * _resume_delay) :: acts)
        else (cmds, m, wd, [])
    | None => (cmds, m, wd, [])
    end.

(** [monitor_loop] over the probes of [_check_internet], each with the
    time it completes at. *)
Fixpoint monitor_loop (probes : list (N * bool)) (cmds : list (N * TaskQueue.command))
    (m : manager) (wd : world) : manager * world * list action :=
  match probes with
  | [] => (m, wd, [])
  | (t, is_online) :: rest =>
      let (cmds, wd) := deliver t cmds wd in
      let '(cmds, m, wd, acts) := _handle_network_state t is_online cmds m wd in
      let '(m, wd, acts') := monitor_loop rest cmds m wd in
      (m, wd, (acts ++ acts')%list)
  end.

End ResilienceManager.

(** ** core/tool_manager.py *)

Module ToolManager.

(** An entry of [tools_config["tools"]]. *)
Record tool_config := ToolConfig {
  binary_path : option string;
  install_cmd : option string;
  version_check : option string;
  category : option string;
  enabled : option bool
}.

(** [not tool_config] for an entry: the empty dictionary is false. *)
Definition is_empty (c : tool_config) : bool :=
  match binary_path c, install_cmd c, version_check c, category c, enabled c with
  | None, None, None, None, None => true
  | _, _, _, _, _ => false
  end.

(** What [ensure_tool] finds outside the process: the binaries
    [shutil.which] resolves (after the expansion of the home directory),
    and the child an install command spawns. *)
Record host := Host {
  which : string -> bool;
  spawn : string -> SubprocessManager.child
}.

Record manager := Manager {
  tools_config : gmap string tool_config;
  installed_tools : gmap string bool
}.

Definition configured (m : manager) (tool_name : string) : option tool_config :=
  match tools_config m !! tool_name with
  | Some c => if is_empty c then None else Some c
  | None => None
  end.

(** [check_tool(tool_name)[0]] *)
Definition check_tool (h : host) (m : manager) (tool_name : string) : bool :=
  match configured m tool_name with
  | None => false
  | Some c => which h (default tool_name (binary_path c))
  end.

(** The manager's own supervisor: nothing pauses or stops it. *)
Definition subprocess_mgr : SubprocessManager.flags := SubprocessManager.Flags false false.

(** [install_tool(tool_name)] at time [now]: the result, the manager
    afterwards and the install commands that were run. *)
Definition install_tool (h : host) (now : N) (m : manager) (tool_name : string)
    : bool * manager * list string :=
  match configured m tool_name with
  | None => (false, m, [])
  | Some c =>
      match install_cmd c with
      | None => (false, m, [])
      | Some cmd =>
          if String.eqb cmd "" then (false, m, [])
          else
            match SubprocessManager.run subprocess_mgr [] now cmd 300 None (spawn h cmd) with
            | (Ok r, _, _) =>
                if (SubprocessManager.returncode r =? 0)%Z
                then (true, Manager (tools_config m) (<[tool_name := true]> (installed_tools m)),
                      [cmd])
                else (false, m, [cmd])
            | (Raise _, _, _) => (false, m, [cmd])
            end
      end
  end.

(** [ensure_tool(tool_name)] *)
Definition ensure_tool (h : host) (now : N) (m : manager) (tool_name : string)
    : bool * manager * list string :=
  match installed_tools m !! tool_name with
  | Some memo => (memo, m, [])
  | None =>
      if check_tool h m tool_name
      then (true, Manager (tools_config m) (<[tool_name := true]> (installed_tools m)), [])
      else install_tool h now m tool_name
  end.

End ToolManager.

(** * Scenarios *)

(** ** A missing tool that installs *)

Module C9_example.
Import ToolManager.

Definition nuclei : tool_config :=
  ToolConfig (Some "~/go/bin/nuclei")
             (Some "go install github.com/projectdiscovery/nuclei/v3/cmd/nuclei@latest")
             (Some "nuclei -version") (Some "vuln") (Some true).

(** The binary is missing, the install command exits with 0. *)
Definition missing : host :=
  Host (fun _ => false)
       (fun _ => SubprocessManager.Child true 0%N [(800%N, "installing")] 900%N [] 900%N 950%N
                   0%Z).

Definition fresh : manager := Manager {[ "nuclei" := nuclei ]} ∅.
Definition after : manager := (ensure_tool missing 0%N fresh "nuclei").1.2.
End C9_example.

(** ** A scan of example.com *)

Module Scenario.
Import ScannerEngine.
Local Open Scope N_scope.

(** A stage that takes [ms] and finds nothing. *)
Definition quiet (ms : N) : scanner :=
  fun _ _ _ _ start _ _ => Some (start + ms, Ok (JDict [])).


Definition utc (t : N) : string := "2024-01-01T00:00:00".

(** A stage whose scanner raises after [ms]. *)
Definition broken (ms : N) : scanner :=
  fun _ _ _ _ start _ _ => Some (start + ms, Raise (ScannerError "Target acme not found")).

(** The first stage raises after five seconds, the others are quiet. *)
Definition faulty : env :=
  Env (fun m => if String.eqb m "subdomain_enum" then Some (broken 5000)
                else Some (quiet 60000))
      (fun _ => (FileOk, false)) false utc.

(** Every stage takes a minute; every write succeeds. *)
Definition calm : env :=
  Env (fun _ => Some (quiet 60000)) (fun _ => (FileOk, false)) false utc.

(** Scan s1 of target acme: created, its task built and queued at 1 ms. *)
Definition s1_task : ScanTask := new_task "s1" "acme" [] 0.

Definition created : world :=
  World {[ 0%nat := s1_task ]} [] ∅ ∅ None true
        (Store ∅ {[ "s1" := DB.new_row "acme" 0 ]}).

Definition queued : world := TaskQueue.add_task 1 0%nat created.

Definition final (o : option outcome) : option sim :=
  match o with
  | Some (Returned s) => Some s
  | _ => None
  end.

Definition began (lg : list entry) : list string :=
  flat_map (fun x => match x with Began _ m => [m] | _ => [] end) lg.

(** The stages that begin after the first command of the log is issued. *)
Fixpoint began_after_command (lg : list entry) : list string :=
  match lg with
  | [] => []
  | Issued _ _ :: rest => began rest
  | _ :: rest => began_after_command rest
  end.

(** The row of s1, the task object and the state file at the end. *)
Definition row_of (s : sim) : option DB.scan_row := scans (disk (w s)) !! "s1".
Definition file_of (s : sim) : option text :=
  files (disk (w s)) !! StateCheckpoint.state_file "s1".

Definition row_has_checkpoint (s : sim) : bool :=
  match row_of s with
  | Some r => match DB.checkpoint_data r with
              | Some (Encoded _) => true
              | _ => false
              end
  | None => false
  end.

(** *** The worker runs s1 to the end, nobody interferes. *)
Definition undisturbed : option outcome := Worker.process_next calm 10 [] queued.

(** The engine of s1 as the worker starts it, and as its run leaves it. *)
Definition booted : sim :=
  Worker.boot 10 [] 0%nat s1_task (set_current_task (Some 0%nat) (set_queue [] queued)).

(** The same engine while another scan is queued, paused and resumed by
    its owner, and a resume of the engine itself comes in. *)
Definition visited : sim :=
  Sim (clock booted)
      [ (20000, Queue (TaskQueue.PauseTask "s2")); (70000, Resume);
        (90000, Queue (TaskQueue.ResumeTask "s2")) ]
      (eng booted) (w booted) (log booted).

Definition ran : sim :=
  match run calm booted with
  | Returned s => s
  | _ => booted
  end.

(** The same scan, created with [stop_on_error]. *)
Definition strict_task : ScanTask := new_task "s1" "acme" [("stop_on_error", JBool true)] 0.

Definition strict_queued : world :=
  TaskQueue.add_task 1 0%nat
    (World {[ 0%nat := strict_task ]} [] ∅ ∅ None true
           (Store ∅ {[ "s1" := DB.new_row "acme" 0 ]})).

(** The strict scan as the worker starts it, and where its run raises. *)
Definition strict_booted : sim :=
  Worker.boot 10 [] 0%nat strict_task
    (set_current_task (Some 0%nat) (set_queue [] strict_queued)).

Definition raised_in (o : outcome) (otherwise : sim) : sim :=
  match o with
  | Raised _ s => s
  | _ => otherwise
  end.

Definition strict_raised : sim := raised_in (run faulty strict_booted) strict_booted.

(** *** The user stops s1 half a minute into the first stage. *)
Definition stopped_early : option outcome :=
  Worker.process_next calm 10 [(30000, Queue (TaskQueue.StopTask "s1"))] queued.

(** *** The first checkpoint of s1, as [_run_module] saves it. *)
Definition first_cache : json :=
  JDict [("subdomain_enum",
          JDict [("subdomains", JList [JStr "www.example.com"; JStr "api.example.com"]);
                 ("count", JInt 2)])].

Definition first_save : result store :=
  StateCheckpoint.save_state FileOk false (utc 60010) (disk queued) "s1" "subdomain_enum"
    (firstn 1 MODULE_ORDER) (skipn 1 MODULE_ORDER) first_cache None.

Definition first_store : store :=
  match first_save with
  | Ok st => st
  | Raise _ => disk queued
  end.

Definition first_checkpoint : list (string * json) :=
  match files first_store !! StateCheckpoint.state_file "s1" with
  | Some (Encoded (JDict d)) => d
  | _ => []
  end.

(** *** A checkpoint that [_verify_checksum] accepts: the payload with the
    checksum of the payload. *)
Definition sealed (payload : list (string * json)) : json :=
  JDict (payload ++ [("checksum", JStr (StateCheckpoint.generate_checksum (JDict payload)))]).

Definition http_probe_payload : list (string * json) :=
  [ ("scan_id", JStr "s1");
    ("timestamp", JStr (utc 180010));
    ("current_module", JStr "http_probe");
    ("completed_modules", JList (map JStr (firstn 3 MODULE_ORDER)));
    ("pending_modules", JList (map JStr (skipn 3 MODULE_ORDER)));
    ("module_state", JDict []);
    ("results_cache", JDict [("subdomain_enum", JDict []); ("dns_resolution", JDict []);
                             ("http_probe", JDict [])]) ].

Definition after_http_probe : json := sealed http_probe_payload.

(** The process was killed after http_probe; s1 is queued again. *)
Definition restarted : world :=
  set_disk (Store {[ StateCheckpoint.state_file "s1" := Encoded after_http_probe ]}
                  (scans (disk queued))) queued.

Definition resumed : option outcome := Worker.process_next calm 10 [] restarted.

(** What is looked at when a run of s1 is over. *)
Record verdict := Verdict {
  stages_begun : list string;
  stages_begun_after_command : list string;
  stop_flag : bool;
  row_status : option string;
  row_error_message : option (option string);
  row_checkpoint : bool;
  state_file_left : option text;
  task_status : option TaskStatus
}.

Definition verdict_of (o : option outcome) : option verdict :=
  match final o with
  | Some s =>
      Some (Verdict (began (log s)) (began_after_command (log s)) (_stopped (eng s))
                    (option_map DB.status (row_of s))
                    (option_map DB.error_message (row_of s))
                    (row_has_checkpoint s) (file_of s)
                    (option_map status (heap (w s) !! 0%nat)))
  | None => None
  end.

(** The state file of s1 overwritten with something else. *)
Definition corrupted : store :=
  Store {[ StateCheckpoint.state_file "s1" := Garbled "%PDF-1.4" ]} (scans (disk queued)).

(** What [load_state] finds after the restart. *)
Definition loaded_after_restart : option json :=
  StateCheckpoint.load_state (disk restarted) "s1".

Definition current_module_of (loaded : option json) : option json :=
  match loaded with
  | Some (JDict r) => Json.lookup "current_module" r
  | _ => None
  end.

Definition loaded_current_module : option json := current_module_of loaded_after_restart.

(** *** The scans table when s1 has run to the end. *)
Definition finished : gmap string DB.scan_row :=
  match final undisturbed with
  | Some s => scans (disk (w s))
  | None => ∅
  end.

(** *** After the restart, the checkpoint of port_scan cannot be written:
    the file is opened and the disk is full, the database is away. *)
Definition four_stages : list (string * json) :=
  [ ("subdomain_enum", JDict []); ("dns_resolution", JDict []);
    ("http_probe", JDict []); ("port_scan", JDict []) ].

Definition failed_save : result store :=
  StateCheckpoint.save_state (WriteFails "{") true (utc 60010) (disk restarted) "s1"
    "port_scan" (firstn 4 MODULE_ORDER) (skipn 4 MODULE_ORDER) (JDict four_stages) None.

Definition unreliable : env :=
  Env (fun _ => Some (quiet 60000)) (fun _ => (WriteFails "{", true)) false utc.

(** The engine of s1 about to run port_scan, with a cache of four stages. *)
Definition mid_run : sim := with_engine (set_results_cache (JDict four_stages)) booted.

End Scenario.

(** ** A tool under the process supervisor *)

Module Tool.
Import ScannerEngine.
Local Open Scope N_scope.

Definition newline : string := String (ascii_of_N 10) "".

Definition command_line : string := "subfinder -d example.com -silent".

(** subfinder, called at [start] and spawned 2 ms later: three hosts,
    one a second, and the end of both streams, with the exit, one second
    after the last. *)
Definition subfinder (start : N) : SubprocessManager.child :=
  SubprocessManager.Child true 2
    [ (start + 1000, "www.example.com" ++ newline);
      (start + 2000, "api.example.com" ++ newline);
      (start + 3000, "dev.example.com" ++ newline) ]
    (start + 4000) [] (start + 4000) (start + 4000) 0%Z.

(** A tool that prints two hosts and then hangs with its pipes open. *)
Definition hung (start : N) : SubprocessManager.child :=
  SubprocessManager.Child true 2
    [ (start + 1000, "www.example.com" ++ newline);
      (start + 2000, "api.example.com" ++ newline) ]
    (start + 400000) [] (start + 400000) (start + 400000) 0%Z.













(** *** The engine is paused when a stage ends; the resume comes 2.5 s
    later. *)
Definition waiting : sim :=
  Sim 60010 [(62500, Resume)] (pause (init 0%nat Scenario.s1_task))
      (w Scenario.booted) [].

Definition woken_from (s : sim) : sim :=
  match _wait_for_resume (enough_polls s) s with
  | Some s' => s'
  | None => s
  end.

Definition woken : sim := woken_from waiting.

Definition ended (lg : list entry) : list (N * string) :=
  flat_map (fun x => match x with Ended t m => [(t, m)] | _ => [] end) lg.



End Tool.

(** ** An outage with two scans *)

Module Outage.
Local Open Scope N_scope.

(** Scan a is queued before the outage; the task of scan b exists and is
    queued by its owner during the outage, who pauses it one second
    later. *)
Definition before : world :=
  TaskQueue.add_task 1 0%nat
    (World {[ 0%nat := new_task "a" "acme" [] 0; 1%nat := new_task "b" "acme" [] 0 ]}
           [] ∅ ∅ None true
           (Store ∅ {[ "a" := DB.new_row "acme" 0; "b" := DB.new_row "acme" 0 ]})).

Definition user : list (N * TaskQueue.command) :=
  [ (32000, TaskQueue.AddTask 1%nat); (33000, TaskQueue.PauseTask "b") ].

(** The probe fails from 0 s to 30 s and succeeds at 40 s. *)
Definition probes : list (N * bool) :=
  [ (0, false); (10000, false); (20000, false); (30000, false); (40000, true) ].

Definition monitored : ResilienceManager.manager * world * list ResilienceManager.action :=
  ResilienceManager.monitor_loop probes user (ResilienceManager.Manager None false) before.

(** The monitor when the probe at 40 s succeeds, just before it handles it. *)
Definition at_recovery : ResilienceManager.manager * world * list ResilienceManager.action :=
  ResilienceManager.monitor_loop (firstn 4 probes) user
    (ResilienceManager.Manager None false) before.

End Outage.

(** ** An install command that hangs *)

Module Install.
Import ToolManager.

(** The binary is missing and the install command keeps its pipes open
    for 400 s. *)
Definition stuck : host :=
  Host (fun _ => false) (fun _ => Tool.hung 0).

End Install.
(** * Properties *)

(** ** Sanity checks of the hash and of the serializer *)

Example sha256_empty :
  SHA256.hexdigest [] = "e3b0c44298fc1c149afbf4c8996fb92427ae41e4649b934ca495991b7852b855".
Proof. vm_compute. reflexivity. Qed.

Example sha256_abc :
  SHA256.hexdigest (Str.bytes_of_string "abc")
  = "ba7816bf8f01cfea414140de5dae2223b00361a396177a9cb410ff61f20015ad".
Proof. vm_compute. reflexivity. Qed.

Example sha256_two_blocks :
  SHA256.hexdigest
    (Str.bytes_of_string "abcdbcdecdefdefgefghfghighijhijkijkljklmklmnlmnomnopnopq")
  = "248d6a61d20638b8e5c026930c3e6039a33ce45964ff2167f6ecedd419db06c1".
Proof. vm_compute. reflexivity. Qed.

Example dumps_sample :
  Json.dumps (JDict [("b", JList [JInt 1; JInt (-20); JNull]); ("a", JStr "x\y")])
  = "{" ++ Json.quote "a" ++ ": " ++ Json.dquote ++ "x\\y" ++ Json.dquote ++ ", "
        ++ Json.quote "b" ++ ": [1, -20, null]}".
Proof. reflexivity. Qed.


(** ** Tool registry *)

Section EnsureTool.
Import ToolManager.

Lemma install_tool_true h now m tool m' cmds :
  install_tool h now m tool = (true, m', cmds) ->
  installed_tools m' !! tool = Some true.
Proof.
  unfold install_tool. intros H.
  destruct (configured m tool) as [c|]; [|congruence].
  destruct (install_cmd c) as [cmd|]; [|congruence].
  destruct (String.eqb cmd ""); [congruence|].
  destruct (SubprocessManager.run _ _ _ _ _ _ _) as [[[r|e] evs] t]; [|congruence].
  destruct (SubprocessManager.returncode r =? 0)%Z; [|congruence].
  injection H as <- _. simpl. apply lookup_insert_eq.
Qed.

Lemma ensure_tool_memo h now m tool :
  installed_tools m !! tool = Some true ->
  ensure_tool h now m tool = (true, m, []).
Proof. intros H. unfold ensure_tool. now rewrite H. Qed.

Lemma ensure_tool_true h now m tool m' cmds :
  ensure_tool h now m tool = (true, m', cmds) ->
  installed_tools m' !! tool = Some true.
Proof.
  unfold ensure_tool. intros H.
  destruct (installed_tools m !! tool) as [memo|] eqn:Hm.
  - injection H as -> <- _. exact Hm.
  - destruct (check_tool h m tool).
    + injection H as <- _. simpl. apply lookup_insert_eq.
    + eapply install_tool_true; eauto.
Qed.
End EnsureTool.

(** C9.  Once [ensure_tool] has returned true for a tool, by the memo, by
    a successful probe or by a successful install, every later
    [ensure_tool] for that tool, whatever the host looks like then,
    returns true from the memo, leaves the manager as it is and runs no
    install command. *)
Theorem C9_ensure_tool_idempotent :
  forall h now m tool m' cmds,
    ToolManager.ensure_tool h now m tool = (true, m', cmds) ->
    forall h' now', ToolManager.ensure_tool h' now' m' tool = (true, m', []).
Proof.
  intros h now m tool m' cmds H h' now'.
  apply ensure_tool_memo. eapply ensure_tool_true; eauto.
Qed.


Lemma C9_ensure_tool_idempotent_witness :
  ToolManager.ensure_tool C9_example.missing 0%N C9_example.fresh "nuclei"
    = (true, C9_example.after,
       ["go install github.com/projectdiscovery/nuclei/v3/cmd/nuclei@latest"])
  /\ ToolManager.ensure_tool C9_example.missing 5000%N C9_example.after "nuclei"
    = (true, C9_example.after, []).
Proof.
  assert (H : ToolManager.ensure_tool C9_example.missing 0%N C9_example.fresh "nuclei"
              = (true, C9_example.after,
                 ["go install github.com/projectdiscovery/nuclei/v3/cmd/nuclei@latest"]))
    by (vm_compute; reflexivity).
  split; [exact H|].
  exact (C9_ensure_tool_idempotent _ _ _ _ _ _ H C9_example.missing 5000%N).
Defined.

(** ** Artifact store: the scans table *)

Section UpdateScanStatus.
Import DB.

Lemma status_updates_status now started new task prog r :
  status (status_updates now started new task prog r) = new.
Proof.
  unfold status_updates.
  destruct task as [t|]; [destruct (String.eqb t "")|];
    (destruct prog as [[|kv p]|]);
    destruct (String.eqb new "running" && negb started);
    destruct (String.eqb new "completed" || String.eqb new "failed"); reflexivity.
Qed.

Lemma status_updates_untouched now started new task prog r :
  same_untouched_columns r (status_updates now started new task prog r).
Proof.
  unfold status_updates, same_untouched_columns.
  destruct task as [t|]; [destruct (String.eqb t "")|];
    (destruct prog as [[|kv p]|]);
    destruct (String.eqb new "running" && negb started);
    destruct (String.eqb new "completed" || String.eqb new "failed");
    simpl; repeat split; reflexivity.
Qed.

End UpdateScanStatus.

(** C4, as the code has it.  [update_scan_status] has no guard on the
    current status: whatever the row's status is, terminal or not, the
    status afterwards is the one that was passed.  The columns the
    function never names (among them the error message and the
    checkpoint blob) keep their values, and no other row changes. *)
Theorem C4_update_scan_status_overwrites :
  forall now (db : gmap string DB.scan_row) id new task prog row,
    db !! id = Some row ->
    exists row',
      DB.update_scan_status now db id new task prog !! id = Some row' /\
      DB.status row' = new /\
      DB.same_untouched_columns row row' /\
      forall other, other <> id ->
        DB.update_scan_status now db id new task prog !! other = db !! other.
Proof.
  intros now db id new task prog row H.
  unfold DB.update_scan_status. rewrite H.
  eexists. split; [apply lookup_insert_eq|].
  split; [apply status_updates_status|].
  split; [apply status_updates_untouched|].
  intros other Hne. apply lookup_insert_ne. congruence.
Qed.

(** ** Checkpoint store *)

Section Checkpoint.
Import StateCheckpoint.

(** What [_verify_checksum] compares for a dictionary that carries a
    checksum string. *)
Lemma verify_checksum_spec d c :
  Json.lookup "checksum" d = Some (JStr c) -> c <> "" ->
  verify_checksum (JDict d)
  = Ok (String.eqb (generate_checksum (JDict (Json.without "checksum" d))) c).
Proof.
  intros Hc Hne. unfold verify_checksum. rewrite Hc. simpl.
  destruct (String.eqb_spec c "") as [->|_]; [congruence|]. simpl.
  f_equal. apply String.eqb_sym.
Qed.

Lemma lookup_app_fresh key (d : list (string * json)) x :
  Json.lookup key d = None -> Json.lookup key (d ++ [(key, x)]) = Some x.
Proof.
  induction d as [|[k v] d IH]; intros H; simpl in *.
  - now rewrite String.eqb_refl.
  - destruct (String.eqb key k); [discriminate|]. now apply IH.
Qed.

Lemma without_app_fresh key (d : list (string * json)) x :
  Json.lookup key d = None -> Json.without key (d ++ [(key, x)]) = d.
Proof.
  unfold Json.without.
  induction d as [|[k v] d IH]; intros H; simpl in *.
  - now rewrite String.eqb_refl.
  - rewrite String.eqb_sym.
    destruct (String.eqb key k); [discriminate|]. simpl. f_equal. now apply IH.
Qed.

(** A sealed payload, which carries the checksum of the rest, verifies. *)
Lemma sealed_payload_verifies payload :
  Json.lookup "checksum" payload = None ->
  generate_checksum (JDict payload) <> "" ->
  verify_checksum (Scenario.sealed payload) = Ok true.
Proof.
  intros Hnone Hne. unfold Scenario.sealed.
  rewrite (verify_checksum_spec _ (generate_checksum (JDict payload)));
    auto using lookup_app_fresh.
  rewrite without_app_fresh by assumption. now rewrite String.eqb_refl.
Qed.

(** A digest is never the empty string. *)
Lemma blocks_length fuel ws h :
  length h = 8%nat -> length (SHA256.blocks fuel ws h) = 8%nat.
Proof.
  revert ws h. induction fuel as [|fuel IH]; intros ws h Hh; cbn [SHA256.blocks].
  - exact Hh.
  - destruct ws; [exact Hh|]. apply IH.
    unfold SHA256.compress. rewrite length_zip_with, Hh. reflexivity.
Qed.

Lemma concat_with_cons sep c s l :
  exists r, Str.concat_with sep (String c s :: l) = String c r.
Proof. destruct l; simpl; eauto. Qed.

Lemma hex_fixed_cons n x : exists c r, Str.hex_fixed (S n) x = String c r.
Proof. simpl. eauto. Qed.

Lemma generate_checksum_nonempty data : generate_checksum data <> "".
Proof.
  unfold generate_checksum, SHA256.hexdigest, SHA256.digest_words.
  pose proof (blocks_length
                (length (SHA256.pad (Str.bytes_of_string (Json.dumps data))))
                (SHA256.be_words (length (SHA256.pad (Str.bytes_of_string (Json.dumps data))))
                   (SHA256.pad (Str.bytes_of_string (Json.dumps data))))
                SHA256.initial_hash eq_refl) as H.
  destruct (SHA256.blocks _ _ _) as [|x l]; [discriminate|].
  cbn [map]. destruct (hex_fixed_cons 7 x) as (c & r & ->).
  destruct (concat_with_cons "" c r (map (Str.hex_fixed 8) l)) as [r' ->].
  discriminate.
Qed.

(** For every checkpoint [save_state] builds, [_verify_checksum] compares
    the digest of the payload without its checksum field with the
    digest of the results cache: the checkpoint is accepted exactly when
    the two digests coincide. *)
Lemma saved_checkpoint_verification scan ts cur comp pend d ms cp :
  checkpoint scan ts cur comp pend (JDict d) ms = Ok (JDict cp) ->
  verify_checksum (JDict cp)
  = Ok (String.eqb (generate_checksum (JDict (Json.without "checksum" cp)))
                   (generate_checksum (JDict d))).
Proof.
  unfold checkpoint, serialize_results. intros H. injection H as <-.
  apply verify_checksum_spec; [reflexivity|apply generate_checksum_nonempty].
Qed.

End Checkpoint.

(** C1, at the first checkpoint of scan s1.  [save_state] writes the same
    payload to the file and to the row; its checksum field is the digest
    of [results_cache] alone, which is not the digest of the payload
    with the checksum field removed, so [_verify_checksum] rejects the
    payload and [load_state] returns nothing from either backend. *)
Theorem C1_saved_checkpoint_is_rejected :
  Scenario.first_save = Ok Scenario.first_store /\
  files Scenario.first_store !! StateCheckpoint.state_file "s1"
    = Some (Encoded (JDict Scenario.first_checkpoint)) /\
  option_map DB.checkpoint_data (scans Scenario.first_store !! "s1")
    = Some (Some (Encoded (JDict Scenario.first_checkpoint))) /\
  Json.lookup "checksum" Scenario.first_checkpoint
    = Some (JStr (StateCheckpoint.generate_checksum Scenario.first_cache)) /\
  StateCheckpoint.generate_checksum Scenario.first_cache = "7a00395cfb89759b" /\
  StateCheckpoint.generate_checksum
    (JDict (Json.without "checksum" Scenario.first_checkpoint)) = "3a293371b8c6d7a8" /\
  StateCheckpoint.verify_checksum (JDict Scenario.first_checkpoint) = Ok false /\
  StateCheckpoint.load_state Scenario.first_store "s1" = None.
Proof.
  split; [vm_compute; reflexivity|]. split; [vm_compute; reflexivity|].
  split; [vm_compute; reflexivity|]. split; [vm_compute; reflexivity|].
  split; [vm_compute; reflexivity|]. split; [vm_compute; reflexivity|].
  split; vm_compute; reflexivity.
Qed.

(** ** Stage engine *)

Section ModuleIndex.
Import ScannerEngine.

(** The index [_get_module_index] gives for a stage of the static order
    is the position of that stage itself. *)
Lemma get_module_index_of_member (i : nat) K :
  MODULE_ORDER !! i = Some K -> _get_module_index (JStr K) = i.
Proof.
  intros H.
  do 9 (destruct i as [|i]; [injection H as <-; reflexivity|]).
  discriminate H.
Qed.

(** A name that is missing or not in the static order gives 0. *)
Lemma get_module_index_unknown name :
  index_of name MODULE_ORDER = None -> _get_module_index name = 0%nat.
Proof.
  intros H. unfold _get_module_index. rewrite H. now destruct (negb _).
Qed.

Lemma get_module_index_missing : _get_module_index JNull = 0%nat.
Proof. reflexivity. Qed.

End ModuleIndex.

(** C2, at a scan killed after http_probe.  The checkpoint on disk is one
    [load_state] accepts and names http_probe as the last completed
    stage (the third of the order); the resumed run starts at index 2,
    that is with http_probe again, and not with port_scan. *)
Theorem C2_resume_starts_at_last_completed_stage :
  Scenario.loaded_current_module = Some (JStr "http_probe") /\
  ScannerEngine._get_module_index (JStr "http_probe") = 2%nat /\
  option_map Scenario.stages_begun (Scenario.verdict_of Scenario.resumed)
    = Some ["http_probe"; "port_scan"; "wayback_urls"; "js_analysis";
            "gf_patterns"; "fuzzing"; "nuclei_scan"].
Proof.
  split; [vm_compute; reflexivity|]. split; vm_compute; reflexivity.
Qed.

(** C3, at a scan stopped through the queue half a minute into its first
    stage.  [stop_task] marks the task cancelled and forgets the current
    task; the engine's stop flag stays clear, the eight remaining stages
    begin after the stop, and the worker then records the scan as
    completed, with no error message. *)
Theorem C3_stop_task_leaves_the_engine_running :
  Scenario.verdict_of Scenario.stopped_early
  = Some (Scenario.Verdict
            ScannerEngine.MODULE_ORDER
            ["dns_resolution"; "http_probe"; "port_scan"; "wayback_urls";
             "js_analysis"; "gf_patterns"; "fuzzing"; "nuclei_scan"]
            false (Some "completed") (Some None) true None (Some COMPLETED)).
Proof. vm_compute. reflexivity. Qed.

(** C4, as stated, fails: the row of s1 is written completed when the
    scan ends, and a later [update_scan_status] moves it back to
    running. *)
Lemma C4_counterexample :
  option_map DB.status (Scenario.finished !! "s1") = Some "completed" /\
  option_map DB.status
    (DB.update_scan_status 600000 Scenario.finished "s1" "running" None None !! "s1")
  = Some "running".
Proof. split; vm_compute; reflexivity. Qed.

Lemma C4_update_scan_status_overwrites_witness :
  exists row',
    DB.update_scan_status 600000 Scenario.finished "s1" "failed" None None !! "s1"
      = Some row' /\
    DB.status row' = "failed" /\
    DB.same_untouched_columns
      (default (DB.new_row "acme" 0) (Scenario.finished !! "s1")) row' /\
    forall other, other <> "s1" ->
      DB.update_scan_status 600000 Scenario.finished "s1" "failed" None None !! other
      = Scenario.finished !! other.
Proof.
  apply (C4_update_scan_status_overwrites 600000 Scenario.finished "s1" "failed" None None
           (default (DB.new_row "acme" 0) (Scenario.finished !! "s1"))).
  vm_compute. reflexivity.
Defined.

(** ** Clearance *)

Section Clearance.
Import ScannerEngine.

Lemma clear_state_scans unlink_fails st id :
  scans (StateCheckpoint.clear_state unlink_fails st id) = scans st.
Proof.
  unfold StateCheckpoint.clear_state.
  destruct (files st !! _); [destruct unlink_fails|]; reflexivity.
Qed.

Lemma clear_state_file st id :
  files (StateCheckpoint.clear_state false st id) !! StateCheckpoint.state_file id = None.
Proof.
  unfold StateCheckpoint.clear_state.
  destruct (files st !! _) eqn:H; simpl; [apply lookup_delete_eq|exact H].
Qed.

End Clearance.

(** C5, as stated, fails: s1 runs its nine stages without a stop, the
    state file is gone at the end, and the row still holds the checkpoint
    of the last stage. *)
Lemma C5_counterexample :
  Scenario.verdict_of Scenario.undisturbed
  = Some (Scenario.Verdict ScannerEngine.MODULE_ORDER [] false (Some "completed")
                           (Some None) true None (Some COMPLETED)).
Proof. vm_compute. reflexivity. Qed.

(** C5, as the code has it.  A run that returns without having been
    stopped ends with the clearance step; when the unlink succeeds the
    state file of the scan is gone after it, and the scans table, with the
    checkpoint blob of the row, is what it was before the step. *)
Theorem C5_clearance_removes_the_file_only :
  forall E s s',
    ScannerEngine.run E s = ScannerEngine.Returned s' ->
    ScannerEngine._stopped (ScannerEngine.eng s') = false ->
    ScannerEngine.unlink_fails E = false ->
    files (disk (ScannerEngine.w s'))
      !! StateCheckpoint.state_file (ScannerEngine.scan (ScannerEngine.eng s')) = None /\
    exists s1,
      s' = ScannerEngine.clear_checkpoint E s1 /\
      scans (disk (ScannerEngine.w s')) = scans (disk (ScannerEngine.w s1)).
Proof.
  intros E s s' Hrun Hns Hunlink. unfold ScannerEngine.run in Hrun.
  destruct (ScannerEngine.resume_point _ _) as [i e].
  destruct (ScannerEngine.stage_loop _ _ _ _) as [s1|ex s1|s1]; try discriminate.
  destruct (ScannerEngine._stopped (ScannerEngine.eng s1)) eqn:Hs1.
  - injection Hrun as <-. congruence.
  - injection Hrun as <-. split.
    + unfold ScannerEngine.clear_checkpoint. simpl. rewrite Hunlink.
      apply clear_state_file.
    + exists s1. split; [reflexivity|].
      unfold ScannerEngine.clear_checkpoint. simpl. apply clear_state_scans.
Qed.

Lemma C5_clearance_removes_the_file_only_witness :
  ScannerEngine.run Scenario.calm Scenario.booted = ScannerEngine.Returned Scenario.ran /\
  files (disk (ScannerEngine.w Scenario.ran)) !! StateCheckpoint.state_file "s1" = None /\
  exists s1,
    Scenario.ran = ScannerEngine.clear_checkpoint Scenario.calm s1 /\
    scans (disk (ScannerEngine.w Scenario.ran)) = scans (disk (ScannerEngine.w s1)).
Proof.
  assert (Hrun : ScannerEngine.run Scenario.calm Scenario.booted
                 = ScannerEngine.Returned Scenario.ran) by (vm_compute; reflexivity).
  split; [exact Hrun|].
  apply (C5_clearance_removes_the_file_only Scenario.calm Scenario.booted Scenario.ran Hrun);
    vm_compute; reflexivity.
Defined.

(** ** Checkpoint writes that fail *)

Section BestEffort.
Import ScannerEngine.

(** Commands change the flags of the engine, nothing else of it. *)
Lemma apply_results_cache now c e wd :
  results_cache (apply now c (e, wd)).1 = results_cache e.
Proof. destruct c; reflexivity. Qed.

Lemma deliver_results_cache t cmds e wd lg :
  results_cache (eng (deliver t cmds e wd lg)) = results_cache e.
Proof.
  revert e wd lg. induction cmds as [|[tc c] cmds IH]; intros e wd lg; simpl.
  - reflexivity.
  - destruct (tc <=? t)%N; [|reflexivity].
    destruct c; simpl; rewrite IH; reflexivity.
Qed.

Lemma advance_results_cache t s :
  results_cache (eng (advance t s)) = results_cache (eng s).
Proof. apply deliver_results_cache. Qed.

Lemma save_state_returns ff db_fails ts st id cur comp pend d ms :
  exists st',
    StateCheckpoint.save_state ff db_fails ts st id cur comp pend (JDict d) ms = Ok st'.
Proof. unfold StateCheckpoint.save_state, StateCheckpoint.checkpoint. simpl. eauto. Qed.

(** Whatever happens to the checkpoint write, the lines after the
    scanner do not raise when the cache is a dictionary. *)
Lemma complete_proceeds E m i r s d :
  results_cache (eng s) = JDict d -> (complete E m i r s).2 = Proceeds.
Proof.
  intros Hcache. unfold complete. rewrite Hcache. cbn [setitem].
  cbn [results_cache eng with_world with_engine set_results_cache].
  match goal with |- context [StateCheckpoint.save_state ?a ?b ?c ?d0 ?e ?f ?g ?h (JDict ?x) ?y] =>
    destruct (save_state_returns a b c d0 e f g h x y) as [st' ->] end.
  reflexivity.
Qed.

(** So a stage whose scanner returned does not raise. *)
Lemma run_module_proceeds E m i s sc t r d :
  scanners E m = Some sc ->
  call_scanner sc m s = Some (t, Ok r) ->
  results_cache (eng s) = JDict d ->
  (_run_module E m i s).2 = Proceeds.
Proof.
  intros Hsc Hcall Hcache. unfold _run_module. rewrite Hsc.
  change (call_scanner sc m (note (Began (clock (announce m s)) m) (announce m s)))
    with (call_scanner sc m s).
  rewrite Hcall. apply (complete_proceeds E m i r _ d).
  cbn [note eng]. rewrite advance_results_cache. exact Hcache.
Qed.

End BestEffort.

(** C10, as stated, fails in one point: after the restart of s1 the state
    file holds a checkpoint that [load_state] accepts; the write of the
    next checkpoint fails once the file is open, and the database write
    fails too.  [save_state] returns, the row is as before, but the file
    holds what reached it before the failure, and [load_state] finds
    nothing any more. *)
Lemma C10_counterexample :
  files (disk Scenario.restarted) !! StateCheckpoint.state_file "s1"
    = Some (Encoded Scenario.after_http_probe) /\
  is_Some (StateCheckpoint.load_state (disk Scenario.restarted) "s1") /\
  exists st',
    Scenario.failed_save = Ok st' /\
    scans st' = scans (disk Scenario.restarted) /\
    files st' !! StateCheckpoint.state_file "s1" = Some (Garbled "{") /\
    StateCheckpoint.load_state st' "s1" = None.
Proof.
  split; [vm_compute; reflexivity|].
  split; [vm_compute; eauto|].
  eexists. split; [vm_compute; reflexivity|].
  split; [vm_compute; reflexivity|]. split; vm_compute; reflexivity.
Qed.

(** C10, as the code has it.  For a results cache that is a dictionary,
    [save_state] returns whatever happens to the two writes.  The scans
    table is unchanged when the database write fails; the files are
    unchanged when the state file cannot be opened; when the write fails
    after the file was opened, the file holds what had been written by
    then.  A stage whose scanner returned does not raise, whatever
    happens to its checkpoint, so the stage loop goes on. *)
Theorem C10_checkpoint_failures_are_swallowed :
  forall ff db_fails ts st id cur comp pend d ms E m i s sc t r,
    ScannerEngine.scanners E m = Some sc ->
    ScannerEngine.call_scanner sc m s = Some (t, Ok r) ->
    ScannerEngine.results_cache (ScannerEngine.eng s) = JDict d ->
    (exists st',
       StateCheckpoint.save_state ff db_fails ts st id cur comp pend (JDict d) ms = Ok st' /\
       (db_fails = true -> scans st' = scans st) /\
       (ff = OpenFails -> files st' = files st) /\
       (forall partial, ff = WriteFails partial ->
          files st' !! StateCheckpoint.state_file id = Some (Garbled partial))) /\
    (ScannerEngine._run_module E m i s).2 = ScannerEngine.Proceeds.
Proof.
  intros ff db_fails ts st id cur comp pend d ms E m i s sc t r Hsc Hcall Hcache.
  split; [|eapply run_module_proceeds; eauto].
  unfold StateCheckpoint.save_state, StateCheckpoint.checkpoint. simpl.
  eexists. split; [reflexivity|]. simpl. repeat split.
  - now intros ->.
  - now intros ->.
  - intros partial ->. simpl. apply lookup_insert_eq.
Qed.

Lemma C10_checkpoint_failures_are_swallowed_witness :
  (exists st',
     Scenario.failed_save = Ok st' /\
     (true = true -> scans st' = scans (disk Scenario.restarted)) /\
     (WriteFails "{" = OpenFails -> files st' = files (disk Scenario.restarted)) /\
     (forall partial, WriteFails "{" = WriteFails partial ->
        files st' !! StateCheckpoint.state_file "s1" = Some (Garbled partial))) /\
  (ScannerEngine._run_module Scenario.unreliable "port_scan" 3 Scenario.mid_run).2 = ScannerEngine.Proceeds.
Proof.
  refine (C10_checkpoint_failures_are_swallowed
            (WriteFails "{") true (Scenario.utc 60010) (disk Scenario.restarted) "s1"
            "port_scan" (firstn 4 ScannerEngine.MODULE_ORDER)
            (skipn 4 ScannerEngine.MODULE_ORDER)
            Scenario.four_stages None
            Scenario.unreliable "port_scan" 3%nat Scenario.mid_run
            (Scenario.quiet 60000) 60010%N (JDict []) _ _ _);
    vm_compute; reflexivity.
Defined.

(** ** Resilience monitor *)

Section AutoResume.
Import ResilienceManager.
Local Open Scope N_scope.

Lemma resume_step_paused now wd scan :
  paused_tasks (resume_step now wd scan) = delete scan (paused_tasks wd).
Proof.
  unfold resume_step, TaskQueue.resume_task.
  destruct (paused_tasks wd !! scan) eqn:H; simpl; [reflexivity|].
  symmetry. now apply delete_id.
Qed.

Lemma resume_step_active now wd scan :
  is_Some (paused_tasks wd !! scan) ->
  is_Some (active_tasks (resume_step now wd scan) !! scan).
Proof.
  intros [l H]. unfold resume_step, TaskQueue.resume_task. rewrite H. simpl.
  rewrite lookup_insert_eq. eauto.
Qed.

Lemma resume_step_active_mono now wd scan other :
  is_Some (active_tasks wd !! other) ->
  is_Some (active_tasks (resume_step now wd scan) !! other).
Proof.
  intros H. unfold resume_step, TaskQueue.resume_task.
  destruct (paused_tasks wd !! scan); simpl; [|exact H].
  rewrite lookup_insert_is_Some. destruct (decide (scan = other)); auto.
Qed.

Lemma resume_all_active_mono now ids wd other :
  is_Some (active_tasks wd !! other) ->
  is_Some (active_tasks (fold_left (resume_step now) ids wd) !! other).
Proof.
  revert wd. induction ids as [|id ids IH]; intros wd H; simpl; [exact H|].
  apply IH. now apply resume_step_active_mono.
Qed.

Lemma resume_all_paused now ids wd k :
  paused_tasks (fold_left (resume_step now) ids wd) !! k
  = if decide (k ∈ ids) then None else paused_tasks wd !! k.
Proof.
  revert wd. induction ids as [|id ids IH]; intros wd; simpl.
  - destruct (decide (k ∈ [])) as [H|_]; [inversion H|reflexivity].
  - rewrite IH, resume_step_paused.
    destruct (decide (k ∈ ids)) as [Hin|Hnin].
    + rewrite decide_True by (right; exact Hin). reflexivity.
    + destruct (decide (k = id)) as [->|Hne].
      * rewrite decide_True by left. apply lookup_delete_eq.
      * rewrite decide_False by (intros Hc; inversion Hc; subst; tauto).
        now apply lookup_delete_ne.
Qed.

Lemma resume_all_active now ids wd id :
  id ∈ ids -> is_Some (paused_tasks wd !! id) ->
  is_Some (active_tasks (fold_left (resume_step now) ids wd) !! id).
Proof.
  revert wd. induction ids as [|x ids IH]; intros wd Hin Hp; [inversion Hin|].
  simpl. destruct (decide (id = x)) as [->|Hne].
  - apply resume_all_active_mono. now apply resume_step_active.
  - apply IH.
    + inversion Hin; subst; [congruence|assumption].
    + rewrite resume_step_paused, lookup_delete_ne by congruence. exact Hp.
Qed.

Lemma elem_of_keys (m : gmap string nat) k : k ∈ keys m <-> is_Some (m !! k).
Proof.
  unfold keys. rewrite list_elem_of_fmap. split.
  - intros [[k' v] [-> H]]. apply elem_of_map_to_list in H. simpl. eauto.
  - intros [v H]. exists (k, v). split; [reflexivity|]. now apply elem_of_map_to_list.
Qed.

(** [_auto_resume] empties [paused_tasks] and puts every scan that was in
    it into [active_tasks]. *)
Lemma auto_resume_all now m wd :
  let '(m', wd', acts) := _auto_resume now m wd in
  _was_paused_by_outage m' = false /\
  acts = map AutoResumed (keys (paused_tasks wd)) /\
  paused_tasks wd' = ∅ /\
  forall id, is_Some (paused_tasks wd !! id) -> is_Some (active_tasks wd' !! id).
Proof.
  unfold _auto_resume. split; [reflexivity|]. split; [reflexivity|]. split.
  - apply map_empty. intros k.
    rewrite resume_all_paused.
    destruct (decide (k ∈ keys (paused_tasks wd))) as [_|Hn]; [reflexivity|].
    destruct (paused_tasks wd !! k) eqn:E; [|reflexivity].
    exfalso. apply Hn. apply elem_of_keys. eauto.
  - intros id Hid.
    apply resume_all_active; [now apply elem_of_keys|exact Hid].
Qed.

End AutoResume.

(** C6, as stated, fails: scan a is paused by the outage at 30 s; scan b
    is queued at 32 s and paused by its owner at 33 s; when the probe
    succeeds at 40 s the monitor sleeps 10 s and resumes both. *)
Lemma C6_counterexample :
  Outage.monitored.2
  = [ ResilienceManager.AutoPaused "a"; ResilienceManager.Slept 10000;
      ResilienceManager.AutoResumed "a"; ResilienceManager.AutoResumed "b" ] /\
  ~ In (ResilienceManager.AutoPaused "b") Outage.monitored.2 /\
  In (33000%N, TaskQueue.PauseTask "b") Outage.user /\
  status <$> heap Outage.monitored.1.2 !! 1%nat = Some RUNNING.
Proof.
  assert (H : Outage.monitored.2
              = [ ResilienceManager.AutoPaused "a"; ResilienceManager.Slept 10000;
                  ResilienceManager.AutoResumed "a"; ResilienceManager.AutoResumed "b" ])
    by (vm_compute; reflexivity).
  split; [exact H|]. split.
  - rewrite H. simpl. intros [?|[?|[?|[?|[]]]]]; discriminate.
  - split; [right; left; reflexivity|vm_compute; reflexivity].
Qed.

(** C6, as the code has it.  When the probe succeeds while an
    outage-pause is outstanding, the monitor sleeps 10 seconds and then
    resumes every scan that is in the queue's paused map at that moment,
    whatever put it there: afterwards the paused map is empty, each of
    these scans is in the active map, and the outage-pause is no longer
    outstanding. *)
Theorem C6_auto_resume_resumes_every_paused_scan :
  forall now cmds m wd since,
    ResilienceManager._offline_since m = Some since ->
    ResilienceManager._was_paused_by_outage m = true ->
    exists cmds' m' wd' acts,
      ResilienceManager._handle_network_state now true cmds m wd = (cmds', m', wd', acts) /\
      let woken := (ResilienceManager.deliver (now + 10000) cmds wd).2 in
      acts = ResilienceManager.Slept 10000
               :: map ResilienceManager.AutoResumed
                      (ResilienceManager.keys (paused_tasks woken)) /\
      paused_tasks wd' = ∅ /\
      (forall id, is_Some (paused_tasks woken !! id) -> is_Some (active_tasks wd' !! id)) /\
      ResilienceManager._offline_since m' = None /\
      ResilienceManager._was_paused_by_outage m' = false.
Proof.
  intros now cmds m wd since Hoff Hout.
  unfold ResilienceManager._handle_network_state. cbn [negb]. rewrite Hoff.
  cbn [ResilienceManager._was_paused_by_outage]. rewrite Hout.
  change (1000 * ResilienceManager._resume_delay)%N with 10000%N.
  destruct (ResilienceManager.deliver (now + 10000) cmds wd) as [cmds1 wd1] eqn:Hd.
  pose proof (auto_resume_all (now + 10000) (ResilienceManager.Manager None true) wd1) as H.
  unfold ResilienceManager._auto_resume in *.
  destruct H as (H1 & H2 & H3 & H4).
  eexists _, _, _, _. split; [reflexivity|]. cbn [snd].
  split; [reflexivity|]. split; [exact H3|]. split; [exact H4|].
  split; reflexivity.
Qed.

Lemma C6_auto_resume_resumes_every_paused_scan_witness :
  exists cmds' m' wd' acts,
    ResilienceManager._handle_network_state 40000 true Outage.user
      Outage.at_recovery.1.1 Outage.at_recovery.1.2 = (cmds', m', wd', acts) /\
    let woken := (ResilienceManager.deliver (40000 + 10000) Outage.user
                    Outage.at_recovery.1.2).2 in
    acts = ResilienceManager.Slept 10000
             :: map ResilienceManager.AutoResumed
                    (ResilienceManager.keys (paused_tasks woken)) /\
    paused_tasks wd' = ∅ /\
    (forall id, is_Some (paused_tasks woken !! id) -> is_Some (active_tasks wd' !! id)) /\
    ResilienceManager._offline_since m' = None /\
    ResilienceManager._was_paused_by_outage m' = false.
Proof.
  apply (C6_auto_resume_resumes_every_paused_scan 40000 Outage.user
           Outage.at_recovery.1.1 Outage.at_recovery.1.2 0%N);
    vm_compute; reflexivity.
Defined.

(** ** Process supervisor *)

Section Supervisor.
Import SubprocessManager.
Local Open Scope N_scope.

Lemma flags_at_never_stopped f0 cmds t :
  never_stopped f0 cmds -> stopped (flags_at f0 cmds t) = false.
Proof.
  intros [H0 Hall]. revert f0 H0.
  induction Hall as [|[tc c] cmds Hc Hall IH]; intros f0 H0; simpl; [exact H0|].
  destruct (tc <=? t); [|exact H0].
  apply IH. destruct c; simpl in *; congruence.
Qed.






(** A stream that stays open past the deadline keeps its reader from
    returning: [wait_for] cancels it, unless a line overruns the limit
    first. *)
Lemma read_stream_open_pipe f0 cmds deadline gone_at from ls eof t :
  never_stopped f0 cmds -> deadline < eof ->
  forall t', finished (read_stream f0 cmds deadline gone_at from ls eof t) <> Done t'.
Proof.
  intros Hns Heof. revert t.
  induction ls as [|[arrival raw] rest IH]; intros t t'; cbn [read_stream].
  - destruct (N.ltb_spec deadline (N.max t eof)); [discriminate|lia].
  - destruct (deadline <? N.max t arrival); [discriminate|].
    destruct (readline raw) as [line|e]; [|discriminate].
    rewrite (flags_at_never_stopped _ _ _ Hns).
    destruct (pause_loop f0 cmds deadline (poll_fuel deadline) (N.max t arrival))
      as [evs [t2|]]; cbn [and_then finished]; [apply IH|discriminate].
Qed.

(** The polls given to [pause_loop] never run out before the deadline:
    more of them change nothing. *)
Lemma pause_loop_fuel f0 cmds deadline n m t :
  t <= deadline -> deadline < t + 100 * N.of_nat n ->
  pause_loop f0 cmds deadline (n + m) t = pause_loop f0 cmds deadline n t.
Proof.
  revert t. induction n as [|n IH]; intros t Hle Hlt; [lia|].
  cbn [Nat.add pause_loop].
  destruct (paused _ && negb (stopped _)); [|reflexivity].
  destruct (N.ltb_spec deadline (t + 100)); [reflexivity|].
  rewrite IH by lia. reflexivity.
Qed.

Lemma poll_fuel_enough f0 cmds deadline m t :
  t <= deadline ->
  pause_loop f0 cmds deadline (poll_fuel deadline + m) t
  = pause_loop f0 cmds deadline (poll_fuel deadline) t.
Proof.
  intros Hle. apply pause_loop_fuel; [exact Hle|].
  unfold poll_fuel. rewrite Nat2N.inj_succ, N2Nat.id.
  pose proof (N.mod_lt deadline 100). pose proof (N.div_mod deadline 100). lia.
Qed.

(** So [gather] does not complete when the child keeps one of its pipes
    open past the deadline and nobody stops the supervisor. *)
Lemma gather_open_pipe f0 cmds start deadline c :
  never_stopped f0 cmds ->
  deadline < stdout_eof c \/ deadline < stderr_eof c ->
  forall t, (gather f0 cmds start deadline c).2 <> Both t.
Proof.
  intros Hns Hopen t. unfold gather. cbn [snd].
  pose proof (read_stream_open_pipe f0 cmds deadline (gone c) Stdout (stdout_lines c)
                (stdout_eof c) start Hns) as Ho.
  pose proof (read_stream_open_pipe f0 cmds deadline (gone c) Stderr (stderr_lines c)
                (stderr_eof c) start Hns) as He.
  destruct (finished (read_stream f0 cmds deadline (gone c) Stdout _ _ _)) as [t1| |e1 t1];
    destruct (finished (read_stream f0 cmds deadline (gone c) Stderr _ _ _)) as [t2| |e2 t2];
    cbn [gather_end]; try discriminate.
  - destruct Hopen as [H|H]; [now elim (Ho H t1)|now elim (He H t2)].
  - now destruct (t2 <? t1).
Qed.









End Supervisor.




(** ** Pause *)

Section Pause.
Import ScannerEngine.
Local Open Scope N_scope.

Lemma deliver_clock t cmds e wd lg : clock (deliver t cmds e wd lg) = t.
Proof.
  revert e wd lg. induction cmds as [|[tc c] cmds IH]; intros e wd lg; simpl.
  - reflexivity.
  - destruct (tc <=? t); [|reflexivity]. destruct c; simpl; apply IH.
Qed.

Lemma advance_clock t s : clock (advance t s) = N.max (clock s) t.
Proof. apply deliver_clock. Qed.

Lemma poll_clock s : clock (poll s) = clock s + 1000.
Proof. unfold poll. rewrite advance_clock. cbn [note clock]. lia. Qed.


(** While the engine is paused, not stopped, and no command is to come,
    the wait at the boundary goes on for ever. *)
Lemma wait_for_resume_stuck n s :
  pending s = [] -> _paused (eng s) = true -> _stopped (eng s) = false ->
  _wait_for_resume n s = None.
Proof.
  revert s. induction n as [|n IH]; intros s Hpend Hp Hs; simpl; rewrite Hp, Hs; simpl.
  - reflexivity.
  - apply IH; unfold poll, advance, note; simpl; rewrite Hpend; simpl; auto.
Qed.

Lemma last_time_deliver t cmds e wd lg :
  last_time (pending (deliver t cmds e wd lg)) <= last_time cmds.
Proof.
  revert e wd lg. induction cmds as [|[tc c] cmds IH]; intros e wd lg; cbn [deliver].
  - reflexivity.
  - destruct (tc <=? t).
    + destruct (apply tc c (e, wd)) as [e' wd'].
      etransitivity; [apply IH|]. unfold last_time. simpl. lia.
    + reflexivity.
Qed.

Lemma deliver_all t cmds e wd lg :
  last_time cmds <= t -> pending (deliver t cmds e wd lg) = [].
Proof.
  revert e wd lg. induction cmds as [|[tc c] cmds IH]; intros e wd lg H; cbn [deliver].
  - reflexivity.
  - unfold last_time in H. simpl in H.
    destruct (N.leb_spec tc t); [|lia].
    destruct (apply tc c (e, wd)) as [e' wd']. apply IH. unfold last_time. lia.
Qed.

(** One poll of the wait at a boundary. *)
Lemma wait_for_resume_none n s :
  _wait_for_resume (S n) s = None ->
  _paused (eng s) = true /\ _stopped (eng s) = false /\
  _wait_for_resume n (poll s) = None.
Proof.
  cbn [_wait_for_resume].
  destruct (_paused (eng s)); destruct (_stopped (eng s)); simpl; try discriminate. auto.
Qed.

Lemma wait_for_resume_for_ever n s :
  last_time (pending s) <= clock s + 1000 * N.of_nat (S n) ->
  _wait_for_resume (S (S n)) s = None ->
  forall m, _wait_for_resume m s = None.
Proof.
  revert s. induction n as [|n IH]; intros s Hlast Hnone m.
  - apply wait_for_resume_none in Hnone. destruct Hnone as (Hp & Hs & Hnext).
    destruct m as [|m]; cbn [_wait_for_resume]; rewrite Hp, Hs; [reflexivity|].
    cbn [andb negb].
    assert (Hempty : pending (poll s) = []).
    { unfold poll, advance. apply deliver_all. cbn [note clock pending]. lia. }
    apply wait_for_resume_none in Hnext. destruct Hnext as (Hp1 & Hs1 & _).
    now apply wait_for_resume_stuck.
  - apply wait_for_resume_none in Hnone. destruct Hnone as (Hp & Hs & Hnext).
    destruct m as [|m]; cbn [_wait_for_resume]; rewrite Hp, Hs; [reflexivity|].
    cbn [andb negb]. apply IH; [|exact Hnext].
    rewrite poll_clock. unfold poll, advance.
    etransitivity; [apply last_time_deliver|]. cbn [note pending]. lia.
Qed.

(** The polls [stage_loop] gives the wait are enough: when they run out,
    no number of polls would end the wait. *)
Lemma enough_polls_enough s :
  _wait_for_resume (enough_polls s) s = None ->
  forall m, _wait_for_resume m s = None.
Proof.
  unfold enough_polls. apply wait_for_resume_for_ever.
  rewrite Nat2N.inj_succ, N2Nat.id.
  pose proof (N.mod_lt (last_time (pending s) - clock s) 1000).
  pose proof (N.div_mod (last_time (pending s) - clock s) 1000). lia.
Qed.

(** No operation of the task queue reaches the engine. *)
Lemma queue_command_leaves_engine now c e wd :
  (apply now (Queue c) (e, wd)).1 = e.
Proof. reflexivity. Qed.

End Pause.




(** * Further properties of the code *)

(** ** Strings *)

Section Strings.

Lemma all_append p s1 s2 : Str.all p (s1 ++ s2) = Str.all p s1 && Str.all p s2.
Proof.
  induction s1 as [|a s1 IH]; simpl; [reflexivity|].
  rewrite IH. now rewrite andb_assoc.
Qed.

Lemma all_weaken (p q : ascii -> bool) s :
  (forall a, p a = true -> q a = true) -> Str.all p s = true -> Str.all q s = true.
Proof.
  intros Hpq. induction s as [|a s IH]; simpl; [reflexivity|].
  intros [Ha Hs]%andb_true_iff. rewrite (Hpq _ Ha). now apply IH.
Qed.

Lemma all_take p n s : Str.all p s = true -> Str.all p (Str.take n s) = true.
Proof.
  revert s. induction n as [|n IH]; intros [|a s]; simpl; try reflexivity.
  intros [Ha Hs]%andb_true_iff. rewrite Ha. now apply IH.
Qed.

Lemma all_concat_with p sep l :
  Str.all p sep = true -> Forall (fun s => Str.all p s = true) l ->
  Str.all p (Str.concat_with sep l) = true.
Proof.
  intros Hsep Hl. induction Hl as [|x l Hx Hl IH]; [reflexivity|].
  destruct l as [|y l]; [exact Hx|].
  change (Str.all p (x ++ sep ++ Str.concat_with sep (y :: l)) = true).
  rewrite !all_append, Hx, Hsep, IH. reflexivity.
Qed.

Lemma length_append s1 s2 :
  String.length (s1 ++ s2) = (String.length s1 + String.length s2)%nat.
Proof. induction s1 as [|a s1 IH]; simpl; [reflexivity|]. now rewrite IH. Qed.

Lemma length_take n s :
  (n <= String.length s)%nat -> String.length (Str.take n s) = n.
Proof.
  revert s. induction n as [|n IH]; intros [|a s] H; simpl in *; try reflexivity; try lia.
  rewrite IH by lia. reflexivity.
Qed.

Lemma hex_digit_is_hex d : 0 <= d < 16 -> Str.is_hex (Str.hex_digit d) = true.
Proof.
  intros H.
  assert (d = 0 \/ d = 1 \/ d = 2 \/ d = 3 \/ d = 4 \/ d = 5 \/ d = 6 \/ d = 7 \/
          d = 8 \/ d = 9 \/ d = 10 \/ d = 11 \/ d = 12 \/ d = 13 \/ d = 14 \/ d = 15)
    as Hd by lia.
  repeat (destruct Hd as [->|Hd]; [reflexivity|]). subst. reflexivity.
Qed.

Lemma hex_fixed_is_hex n x : Str.all Str.is_hex (Str.hex_fixed n x) = true.
Proof.
  induction n as [|n IH]; simpl; [reflexivity|].
  rewrite IH, hex_digit_is_hex; [reflexivity|].
  apply Z.mod_pos_bound. lia.
Qed.

Lemma hex_fixed_length n x : String.length (Str.hex_fixed n x) = n.
Proof. induction n as [|n IH]; simpl; [reflexivity|]. now rewrite IH. Qed.

End Strings.

(** ** Checksums *)

Section Checksums.
Import StateCheckpoint.

Lemma concat_with_empty_length (l : list string) n :
  Forall (fun s => String.length s = n) l ->
  String.length (Str.concat_with "" l) = (n * length l)%nat.
Proof.
  intros Hl. induction Hl as [|x l Hx Hl IH]; [simpl; lia|].
  destruct l as [|y l]; [simpl; lia|].
  change (String.length (x ++ "" ++ Str.concat_with "" (y :: l))
          = (n * length (x :: y :: l))%nat).
  rewrite !length_append, IH, Hx. simpl. lia.
Qed.

Lemma digest_words_length msg : length (SHA256.digest_words msg) = 8%nat.
Proof. unfold SHA256.digest_words. now apply blocks_length. Qed.

Lemma hexdigest_length msg : String.length (SHA256.hexdigest msg) = 64%nat.
Proof.
  unfold SHA256.hexdigest.
  rewrite (concat_with_empty_length _ 8).
  - now rewrite length_map, digest_words_length.
  - apply Forall_map, Forall_forall. intros x _. apply hex_fixed_length.
Qed.

Lemma hexdigest_is_hex msg : Str.all Str.is_hex (SHA256.hexdigest msg) = true.
Proof.
  unfold SHA256.hexdigest. apply all_concat_with; [reflexivity|].
  apply Forall_map, Forall_forall. intros x _. apply hex_fixed_is_hex.
Qed.

End Checksums.

(** X1.  [_generate_checksum] always gives 16 lowercase hexadecimal
    digits. *)
Theorem generate_checksum_format :
  forall data,
    String.length (StateCheckpoint.generate_checksum data) = 16%nat /\
    Str.all Str.is_hex (StateCheckpoint.generate_checksum data) = true.
Proof.
  intros data. unfold StateCheckpoint.generate_checksum. split.
  - apply length_take. rewrite hexdigest_length. lia.
  - apply all_take, hexdigest_is_hex.
Qed.

(** X2.  [_verify_checksum] accepts a dictionary exactly when its
    checksum field is the string that [_generate_checksum] gives for the
    dictionary without that field. *)
Theorem verify_checksum_accepts_iff :
  forall d,
    StateCheckpoint.verify_checksum (JDict d) = Ok true <->
    Json.lookup "checksum" d
    = Some (JStr (StateCheckpoint.generate_checksum (JDict (Json.without "checksum" d)))).
Proof.
  intros d. split.
  - unfold StateCheckpoint.verify_checksum.
    destruct (Json.lookup "checksum" d) as [stored|]; simpl; [|discriminate].
    destruct (Json.truthy stored); simpl; [|discriminate].
    intros [= H]. destruct stored; simpl in H; try discriminate.
    apply String.eqb_eq in H. now subst.
  - intros H. rewrite (verify_checksum_spec _ _ H).
    + now rewrite String.eqb_refl.
    + apply generate_checksum_nonempty.
Qed.

Lemma verify_checksum_accepts_iff_witness :
  StateCheckpoint.verify_checksum Scenario.after_http_probe = Ok true.
Proof.
  apply (proj2 (verify_checksum_accepts_iff _)). vm_compute. reflexivity.
Defined.

(** ** json.dumps *)

Section Dumps.

(** Induction over JSON values, through lists and dictionaries. *)
Lemma json_induction (P : json -> Prop) :
  P JNull -> (forall b, P (JBool b)) -> (forall n, P (JInt n)) -> (forall s, P (JStr s)) ->
  (forall l, Forall P l -> P (JList l)) ->
  (forall d, Forall (fun kv => P (snd kv)) d -> P (JDict d)) ->
  forall j, P j.
Proof.
  intros Hnull Hbool Hint Hstr Hlist Hdict.
  fix IH 1. intros [| b | n | s | l | d].
  - exact Hnull.
  - apply Hbool.
  - apply Hint.
  - apply Hstr.
  - apply Hlist. induction l as [|x l IHl]; constructor; [apply IH|exact IHl].
  - apply Hdict. induction d as [|[k v] d IHd]; constructor; [apply IH|exact IHd].
Qed.

Lemma escape_char_printable a : Str.all Str.printable (Json.escape_char a) = true.
Proof. destruct a as [[] [] [] [] [] [] [] []]; vm_compute; reflexivity. Qed.

Lemma escape_printable s : Str.all Str.printable (Json.escape s) = true.
Proof.
  induction s as [|a s IH]; simpl; [reflexivity|].
  now rewrite all_append, escape_char_printable, IH.
Qed.

Lemma quote_printable s : Str.all Str.printable (Json.quote s) = true.
Proof.
  unfold Json.quote. now rewrite !all_append, escape_printable.
Qed.

Lemma decimal_digits_printable fuel n acc :
  0 <= n -> Str.all Str.printable acc = true ->
  Str.all Str.printable (Str.decimal_digits fuel n acc) = true.
Proof.
  revert n acc. induction fuel as [|fuel IH]; intros n acc Hn Hacc; simpl; [exact Hacc|].
  assert (Hd : Str.all Str.printable
                 (String (ascii_of_N (Z.to_N (48 + n mod 10))) acc) = true).
  { simpl. rewrite Hacc, andb_true_r.
    pose proof (Z.mod_pos_bound n 10 ltac:(lia)) as Hm.
    unfold Str.printable. rewrite N_ascii_embedding by lia. rewrite Z2N.id by lia.
    apply andb_true_iff. split; apply Z.leb_le; lia. }
  destruct (n <? 10); [exact Hd|].
  apply IH; [apply Z.div_pos; lia|exact Hd].
Qed.

Lemma of_Z_printable n : Str.all Str.printable (Str.of_Z n) = true.
Proof.
  unfold Str.of_Z. destruct (Z.ltb_spec n 0).
  - rewrite all_append. rewrite decimal_digits_printable; [reflexivity|lia|reflexivity].
  - apply decimal_digits_printable; [lia|reflexivity].
Qed.

Lemma insert_item_forall (P : string * string -> Prop) kv l :
  P kv -> Forall P l -> Forall P (Json.insert_item kv l).
Proof.
  intros Hkv Hl. induction Hl as [|x l Hx Hl IH]; simpl; [now constructor|].
  destruct (String.ltb (fst kv) (fst x)); repeat constructor; assumption.
Qed.

Lemma sort_items_forall (P : string * string -> Prop) l :
  Forall P l -> Forall P (Json.sort_items l).
Proof.
  intros Hl. induction Hl as [|x l Hx Hl IH]; simpl; [constructor|].
  now apply insert_item_forall.
Qed.

End Dumps.

(** X3.  [json.dumps] writes printable ASCII only, whatever the strings
    and keys of the value contain: the text and its encoding have the
    same bytes. *)
Theorem dumps_is_printable_ascii :
  forall j, Str.all Str.printable (Json.dumps j) = true.
Proof.
  induction j as [| b | n | s | l IH | d IH] using json_induction.
  - reflexivity.
  - destruct b; reflexivity.
  - apply of_Z_printable.
  - apply quote_printable.
  - cbn [Json.dumps]. rewrite !all_append.
    rewrite all_concat_with; [reflexivity|reflexivity|].
    apply Forall_map. exact IH.
  - cbn [Json.dumps]. rewrite !all_append.
    rewrite all_concat_with; [reflexivity|reflexivity|].
    apply Forall_map.
    apply (sort_items_forall
             (fun kv => Str.all Str.printable (Json.render_item kv) = true)).
    apply Forall_map. eapply Forall_impl; [exact IH|].
    intros [k v] Hv. unfold Json.render_item. cbn [fst snd] in *.
    now rewrite !all_append, quote_printable, Hv.
Qed.

(** ** json.dumps(sort_keys=True) and the order of keys *)

Section SortKeys.

Lemma ascii_compare_refl a : Ascii.compare a a = Eq.
Proof. apply N.compare_refl. Qed.

Lemma compare_lt_trans s1 s2 s3 :
  String.compare s1 s2 = Lt -> String.compare s2 s3 = Lt -> String.compare s1 s3 = Lt.
Proof.
  revert s2 s3. induction s1 as [|a s1 IH]; intros [|b s2] [|c s3]; simpl;
    try discriminate; try reflexivity.
  unfold Ascii.compare.
  destruct (N.compare_spec (N_of_ascii a) (N_of_ascii b)) as [Hab|Hab|Hab];
    destruct (N.compare_spec (N_of_ascii b) (N_of_ascii c)) as [Hbc|Hbc|Hbc];
    try discriminate; intros H1 H2.
  - rewrite Hab, Hbc, N.compare_refl. eapply IH; eauto.
  - rewrite Hab. now rewrite (proj2 (N.compare_lt_iff _ _) Hbc).
  - rewrite <- Hbc. now rewrite (proj2 (N.compare_lt_iff _ _) Hab).
  - assert (Hac : (N_of_ascii a < N_of_ascii c)%N) by lia.
    now rewrite (proj2 (N.compare_lt_iff _ _) Hac).
Qed.

Lemma ltb_trans s1 s2 s3 :
  String.ltb s1 s2 = true -> String.ltb s2 s3 = true -> String.ltb s1 s3 = true.
Proof.
  unfold String.ltb. intros H1 H2.
  destruct (String.compare s1 s2) eqn:E1; try discriminate.
  destruct (String.compare s2 s3) eqn:E2; try discriminate.
  now rewrite (compare_lt_trans _ _ _ E1 E2).
Qed.

Lemma ltb_asym s1 s2 : String.ltb s1 s2 = true -> String.ltb s2 s1 = false.
Proof.
  unfold String.ltb. rewrite (String.compare_antisym s2 s1).
  destruct (String.compare s1 s2); simpl; congruence.
Qed.

Lemma ltb_total s1 s2 : s1 <> s2 -> String.ltb s1 s2 = false -> String.ltb s2 s1 = true.
Proof.
  unfold String.ltb. intros Hne. rewrite (String.compare_antisym s2 s1).
  destruct (String.compare s1 s2) eqn:E; simpl; try congruence.
  apply String.compare_eq_iff in E. contradiction.
Qed.

(** Two items with different keys can be inserted in either order. *)
Lemma insert_item_comm a b l :
  fst a <> fst b ->
  Json.insert_item a (Json.insert_item b l) = Json.insert_item b (Json.insert_item a l).
Proof.
  intros Hne. induction l as [|x l IH]; cbn [Json.insert_item].
  - destruct (String.ltb (fst a) (fst b)) eqn:Hab.
    + now rewrite (ltb_asym _ _ Hab).
    + now rewrite (ltb_total _ _ Hne Hab).
  - destruct (String.ltb (fst b) (fst x)) eqn:Hbx;
      destruct (String.ltb (fst a) (fst x)) eqn:Hax; cbn [Json.insert_item].
    + destruct (String.ltb (fst a) (fst b)) eqn:Hab.
      * now rewrite (ltb_asym _ _ Hab), Hbx.
      * now rewrite (ltb_total _ _ Hne Hab), Hax.
    + destruct (String.ltb (fst a) (fst b)) eqn:Hab.
      * rewrite (ltb_trans _ _ _ Hab Hbx) in Hax. discriminate.
      * now rewrite Hax, Hbx.
    + destruct (String.ltb (fst b) (fst a)) eqn:Hba.
      * rewrite (ltb_trans _ _ _ Hba Hax) in Hbx. discriminate.
      * now rewrite Hbx, Hax.
    + now rewrite Hax, Hbx, IH.
Qed.

Lemma sort_items_permutation l l' :
  Permutation l l' -> NoDup (map fst l) -> Json.sort_items l = Json.sort_items l'.
Proof.
  induction 1 as [|x l l' Hp IH|x y l|l l' l'' Hp1 IH1 Hp2 IH2]; intros Hnd.
  - reflexivity.
  - simpl. rewrite IH; [reflexivity|]. now inversion Hnd.
  - simpl. apply insert_item_comm.
    inversion Hnd as [|? ? Hin _]; subst. intros Heq. apply Hin. rewrite Heq. left.
  - rewrite IH1 by assumption. apply IH2.
    assert (Hm : Permutation (map fst l) (map fst l')) by now apply Permutation_map.
    now rewrite <- Hm.
Qed.

End SortKeys.

(** X4.  With [sort_keys=True] the text of a dictionary, and so its
    checksum, does not depend on the order its keys were inserted in. *)
Theorem checksum_ignores_key_order :
  forall d d',
    Permutation d d' -> NoDup (map fst d) ->
    Json.dumps (JDict d) = Json.dumps (JDict d') /\
    StateCheckpoint.generate_checksum (JDict d) = StateCheckpoint.generate_checksum (JDict d').
Proof.
  intros d d' Hp Hnd.
  assert (H : Json.dumps (JDict d) = Json.dumps (JDict d')).
  { cbn [Json.dumps]. do 4 f_equal.
    apply sort_items_permutation.
    - now apply Permutation_map.
    - rewrite map_map.
      erewrite map_ext; [exact Hnd|]. now intros [k v]. }
  split; [exact H|]. unfold StateCheckpoint.generate_checksum. now rewrite H.
Qed.

Lemma checksum_ignores_key_order_witness :
  Json.dumps (JDict [("b", JInt 1); ("a", JNull)])
    = Json.dumps (JDict [("a", JNull); ("b", JInt 1)]) /\
  StateCheckpoint.generate_checksum (JDict [("b", JInt 1); ("a", JNull)])
    = StateCheckpoint.generate_checksum (JDict [("a", JNull); ("b", JInt 1)]).
Proof.
  apply (checksum_ignores_key_order [("b", JInt 1); ("a", JNull)]
           [("a", JNull); ("b", JInt 1)]).
  - apply perm_swap.
  - cbn [map fst]. apply NoDup_cons. split.
    + intros H. apply list_elem_of_singleton in H. discriminate.
    + apply NoDup_singleton.
Defined.

(** ** load_state *)

Section LoadState.
Import StateCheckpoint.

Lemma lookup_app_other k key (d : list (string * json)) x :
  k <> key -> Json.lookup k (d ++ [(key, x)]) = Json.lookup k d.
Proof.
  intros Hne. induction d as [|[k' v] d IH]; simpl.
  - destruct (String.eqb_spec k key); [contradiction|reflexivity].
  - now rewrite IH.
Qed.

Lemma deserialize_results_sealed payload x :
  deserialize_results (payload ++ [("checksum", x)]) = deserialize_results payload.
Proof.
  unfold deserialize_results. now rewrite !lookup_app_other by discriminate.
Qed.

Lemma load_text_sealed payload :
  Json.lookup "checksum" payload = None ->
  load_text (Encoded (JDict (payload
               ++ [("checksum", JStr (generate_checksum (JDict payload)))])))
  = Some (deserialize_results payload).
Proof.
  intros H. unfold load_text. cbn [json_load].
  rewrite (proj2 (verify_checksum_accepts_iff _)).
  - now rewrite deserialize_results_sealed.
  - rewrite lookup_app_fresh by assumption. now rewrite without_app_fresh.
Qed.

End LoadState.

(** X5.  A checkpoint that carries the checksum of the rest of its payload
    is given back by [load_state], as the resume state made of its
    fields, from the state file when the file holds it, whatever the row
    holds, and from the row when the file is missing or cannot be
    parsed. *)
Theorem load_state_of_a_sealed_checkpoint :
  forall st id payload row,
    Json.lookup "checksum" payload = None ->
    let sealed :=
      Encoded (JDict (payload ++ [("checksum",
                 JStr (StateCheckpoint.generate_checksum (JDict payload)))])) in
    files st !! StateCheckpoint.state_file id = Some sealed \/
    ((files st !! StateCheckpoint.state_file id = None \/
      exists chars, files st !! StateCheckpoint.state_file id = Some (Garbled chars)) /\
     scans st !! id = Some row /\ DB.checkpoint_data row = Some sealed) ->
    StateCheckpoint.load_state st id = Some (StateCheckpoint.deserialize_results payload).
Proof.
  intros st id payload row Hfresh sealed [Hfile|[Hfile [Hrow Hblob]]].
  - unfold StateCheckpoint.load_state. rewrite Hfile. unfold sealed.
    now rewrite load_text_sealed.
  - assert (Hdb : StateCheckpoint.load_from_db st id
                  = Some (StateCheckpoint.deserialize_results payload)).
    { unfold StateCheckpoint.load_from_db, DB.get_scan. rewrite Hrow, Hblob.
      unfold sealed. cbn [text_nonempty]. now apply load_text_sealed. }
    unfold StateCheckpoint.load_state.
    destruct Hfile as [->|[chars ->]]; [exact Hdb|]. exact Hdb.
Qed.

(** X6.  When the state file cannot be parsed and the row holds no
    checkpoint that can, nothing is loaded and the run starts at the first
    stage with the cache it has. *)
Theorem corrupt_checkpoint_restarts_the_scan :
  forall st id chars e,
    files st !! StateCheckpoint.state_file id = Some (Garbled chars) ->
    (forall row, scans st !! id = Some row ->
       DB.checkpoint_data row = None \/
       exists chars', DB.checkpoint_data row = Some (Garbled chars')) ->
    StateCheckpoint.load_state st id = None /\
    ScannerEngine.resume_point (StateCheckpoint.load_state st id) e = (0%nat, e).
Proof.
  intros st id chars e Hfile Hrow.
  assert (H : StateCheckpoint.load_state st id = None).
  { unfold StateCheckpoint.load_state. rewrite Hfile. cbn.
    unfold StateCheckpoint.load_from_db, DB.get_scan.
    destruct (scans st !! id) as [row|] eqn:E; [|reflexivity].
    destruct (Hrow row eq_refl) as [->|[chars' ->]]; [reflexivity|].
    cbn. now destruct (negb _). }
  split; [exact H|]. now rewrite H.
Qed.

Lemma load_state_of_a_sealed_checkpoint_witness :
  StateCheckpoint.load_state (disk Scenario.restarted) "s1"
  = Some (StateCheckpoint.deserialize_results Scenario.http_probe_payload).
Proof.
  apply (load_state_of_a_sealed_checkpoint (disk Scenario.restarted) "s1"
           Scenario.http_probe_payload (DB.new_row "acme" 0)).
  - vm_compute. reflexivity.
  - left. vm_compute. reflexivity.
Defined.

Lemma corrupt_checkpoint_restarts_the_scan_witness :
  StateCheckpoint.load_state Scenario.corrupted "s1" = None /\
  ScannerEngine.resume_point (StateCheckpoint.load_state Scenario.corrupted "s1")
    (ScannerEngine.init 0 Scenario.s1_task)
  = (0%nat, ScannerEngine.init 0 Scenario.s1_task).
Proof.
  apply (corrupt_checkpoint_restarts_the_scan Scenario.corrupted "s1" "%PDF-1.4").
  - vm_compute. reflexivity.
  - intros row Hrow. left.
    assert (H : scans Scenario.corrupted !! "s1" = Some (DB.new_row "acme" 0))
      by (vm_compute; reflexivity).
    rewrite H in Hrow. injection Hrow as <-. reflexivity.
Defined.

(** ** The engine: stop *)

Section Stop.
Import ScannerEngine.

Lemma deliver_stopped t cmds e wd lg :
  _stopped e = true -> SubprocessManager.stopped (subprocess_mgr e) = true ->
  _stopped (eng (deliver t cmds e wd lg)) = true /\
  SubprocessManager.stopped (subprocess_mgr (eng (deliver t cmds e wd lg))) = true.
Proof.
  revert e wd lg. induction cmds as [|[tc c] cmds IH]; intros e wd lg H1 H2; cbn [deliver].
  - now split.
  - destruct (tc <=? t)%N; [|now split].
    destruct c; cbn [apply]; apply IH; simpl; auto.
Qed.

Lemma resume_point_stopped loaded e :
  _stopped (resume_point loaded e).2 = _stopped e.
Proof.
  unfold resume_point.
  destruct loaded as [[| | | | |r]|]; try reflexivity.
  destruct (Json.truthy (JDict r) && _); reflexivity.
Qed.

Lemma stage_loop_stopped E mods i s :
  _stopped (eng s) = true -> stage_loop E mods i s = Returned s.
Proof. intros H. destruct mods; cbn [stage_loop]; [reflexivity|]. now rewrite H. Qed.

End Stop.

(** X7.  Stop is final: once [stop] has been called, no later call of
    [pause], [resume] or [stop], and no operation of the queue, clears the
    stop flag of the engine or of its process supervisor. *)
Theorem stop_is_final :
  forall t cmds e wd lg,
    let stopped_engine := ScannerEngine.stop e in
    let later := ScannerEngine.eng (ScannerEngine.deliver t cmds stopped_engine wd lg) in
    ScannerEngine._stopped later = true /\
    SubprocessManager.stopped (ScannerEngine.subprocess_mgr later) = true.
Proof. intros. apply deliver_stopped; reflexivity. Qed.

(** X8.  A run whose engine is already stopped begins no stage, lets no
    time pass, and leaves the queue, the table and the checkpoint as
    they are. *)
Theorem stopped_engine_runs_nothing :
  forall E s,
    ScannerEngine._stopped (ScannerEngine.eng s) = true ->
    exists s',
      ScannerEngine.run E s = ScannerEngine.Returned s' /\
      ScannerEngine.log s' = ScannerEngine.log s /\
      ScannerEngine.w s' = ScannerEngine.w s /\
      ScannerEngine.clock s' = ScannerEngine.clock s /\
      ScannerEngine._stopped (ScannerEngine.eng s') = true.
Proof.
  intros E s Hs. unfold ScannerEngine.run.
  pose proof (resume_point_stopped
                (StateCheckpoint.load_state (disk (ScannerEngine.w s))
                   (ScannerEngine.scan (ScannerEngine.eng s)))
                (ScannerEngine.eng s)) as Hr.
  destruct (ScannerEngine.resume_point _ _) as [i e]. cbn [snd] in Hr.
  rewrite stage_loop_stopped by (cbn; congruence).
  cbn. rewrite Hr, Hs. eexists. split; [reflexivity|]. cbn. repeat split. congruence.
Qed.

Lemma stopped_engine_runs_nothing_witness :
  exists s',
    ScannerEngine.run Scenario.calm
      (ScannerEngine.with_engine ScannerEngine.stop Scenario.booted)
      = ScannerEngine.Returned s' /\
    ScannerEngine.log s' = [] /\
    ScannerEngine.w s' = ScannerEngine.w Scenario.booted /\
    ScannerEngine.clock s' = 10%N /\
    ScannerEngine._stopped (ScannerEngine.eng s') = true.
Proof.
  apply (stopped_engine_runs_nothing Scenario.calm
           (ScannerEngine.with_engine ScannerEngine.stop Scenario.booted)).
  reflexivity.
Defined.

(** ** The engine: what a stage changes *)

Section Stage.
Import ScannerEngine.

Lemma update_scan_status_checkpoints now db id new task prog :
  DB.checkpoints (DB.update_scan_status now db id new task prog) = DB.checkpoints db.
Proof.
  unfold DB.checkpoints, DB.update_scan_status.
  destruct (db !! id) as [row|] eqn:E; [|reflexivity].
  apply map_eq. intros k. rewrite !lookup_fmap.
  destruct (decide (k = id)) as [->|Hne].
  - rewrite lookup_insert_eq, E. simpl. f_equal.
    apply (status_updates_untouched now (DB.is_scan_started db id) new task prog row).
  - now rewrite lookup_insert_ne by congruence.
Qed.

Lemma same_checkpoints_refl st : same_checkpoints st st.
Proof. now split. Qed.

Lemma same_checkpoints_trans st1 st2 st3 :
  same_checkpoints st1 st2 -> same_checkpoints st2 st3 -> same_checkpoints st1 st3.
Proof. intros [H1 H2] [H3 H4]. split; congruence. Qed.

Lemma db_update_same_checkpoints now id new task prog wd :
  same_checkpoints (disk wd) (disk (db_update_scan_status now id new task prog wd)).
Proof. split; [reflexivity|]. apply update_scan_status_checkpoints. Qed.

Lemma queue_apply_same_checkpoints now c wd :
  same_checkpoints (disk wd) (disk (TaskQueue.apply now c wd)).
Proof.
  destruct c as [l|id|id|id]; cbn [TaskQueue.apply].
  - unfold TaskQueue.add_task. destruct (heap wd !! l); [|apply same_checkpoints_refl].
    eapply same_checkpoints_trans; [|apply db_update_same_checkpoints].
    apply same_checkpoints_refl.
  - unfold TaskQueue.pause_task. destruct (active_tasks wd !! id); [|apply same_checkpoints_refl].
    destruct (TaskQueue.current_is _ _); apply same_checkpoints_refl.
  - unfold TaskQueue.resume_task.
    destruct (paused_tasks wd !! id); apply same_checkpoints_refl.
  - unfold TaskQueue.stop_task. destruct (active_tasks wd !! id); [|apply same_checkpoints_refl].
    destruct (TaskQueue.current_is _ _); apply same_checkpoints_refl.
Qed.

(** What the commands that arrive leave alone: the checkpoints, and of the
    engine everything but its flags. *)
Lemma deliver_keeps t cmds e wd lg :
  let s := deliver t cmds e wd lg in
  same_checkpoints (disk wd) (disk (w s)) /\
  results_cache (eng s) = results_cache e /\ conf (eng s) = conf e /\
  scan (eng s) = scan e /\ task (eng s) = task e.
Proof.
  revert e wd lg. induction cmds as [|[tc c] cmds IH]; intros e wd lg; cbn [deliver].
  - cbn. auto using same_checkpoints_refl.
  - destruct (tc <=? t)%N; [|cbn; auto using same_checkpoints_refl].
    destruct c as [qc| | |]; cbn [apply].
    + destruct (IH e (TaskQueue.apply tc qc wd) (lg ++ [Issued tc (Queue qc)])%list)
        as (H1 & H2).
      split; [|exact H2].
      eapply same_checkpoints_trans; [apply queue_apply_same_checkpoints|exact H1].
    + apply (IH (pause e)).
    + apply (IH (resume e)).
    + apply (IH (stop e)).
Qed.

Lemma announce_keeps m s :
  same_checkpoints (disk (w s)) (disk (w (announce m s))) /\
  eng (announce m s) = eng s /\ pending (announce m s) = pending s /\
  clock (announce m s) = clock s /\ log (announce m s) = log s.
Proof.
  unfold announce. cbn. split; [|auto].
  apply db_update_same_checkpoints.
Qed.

(** [_serialize_results] leaves a dictionary of JSON values as it is. *)
Lemma serialize_results_dict d : StateCheckpoint.serialize_results (JDict d) = Ok (JDict d).
Proof.
  unfold StateCheckpoint.serialize_results. do 2 f_equal.
  induction d as [|[k v] d IH]; simpl; [reflexivity|].
  rewrite IH. now destruct v.
Qed.

End Stage.

Section StageOutcome.
Import ScannerEngine.

(** The state in which [_run_module] finds itself when the scanner has
    returned or raised at [t]. *)
Lemma after_scanner_keeps m t s :
  let s2 := note (Ended (N.max (clock (note (Began (clock (announce m s)) m) (announce m s))) t) m)
                 (advance t (note (Began (clock (announce m s)) m) (announce m s))) in
  same_checkpoints (disk (w s)) (disk (w s2)) /\
  results_cache (eng s2) = results_cache (eng s) /\ conf (eng s2) = conf (eng s) /\
  scan (eng s2) = scan (eng s) /\ task (eng s2) = task (eng s).
Proof.
  intros s2. unfold s2, advance. cbn [note w eng clock pending log].
  destruct (announce_keeps m s) as (Hc & He & _).
  match goal with |- context [deliver ?t0 ?c ?e ?wd ?lg] =>
    destruct (deliver_keeps t0 c e wd lg) as (H1 & H2 & H3 & H4 & H5) end.
  cbn zeta in *. rewrite H2, H3, H4, H5, He.
  split; [|auto]. eapply same_checkpoints_trans; eauto.
Qed.

Lemma stop_on_error_conf e e' : conf e' = conf e -> stop_on_error e' = stop_on_error e.
Proof. unfold stop_on_error. now intros ->. Qed.

End StageOutcome.

(** X9.  When the scanner of a stage raises, [_run_module] raises the
    same exception if the scan's configuration sets [stop_on_error], and
    returns normally otherwise; either way the results cache is as it was
    and no checkpoint is written, to the files or to a row. *)
Theorem failed_stage_writes_no_checkpoint :
  forall E m i s sc t e,
    ScannerEngine.scanners E m = Some sc ->
    ScannerEngine.call_scanner sc m s = Some (t, Raise e) ->
    (ScannerEngine._run_module E m i s).2
      = (if ScannerEngine.stop_on_error (ScannerEngine.eng s)
         then ScannerEngine.Raises e else ScannerEngine.Proceeds) /\
    ScannerEngine.results_cache (ScannerEngine.eng (ScannerEngine._run_module E m i s).1)
      = ScannerEngine.results_cache (ScannerEngine.eng s) /\
    same_checkpoints (disk (ScannerEngine.w s))
      (disk (ScannerEngine.w (ScannerEngine._run_module E m i s).1)).
Proof.
  intros E m i s sc t e Hsc Hcall. unfold ScannerEngine._run_module. rewrite Hsc.
  change (ScannerEngine.call_scanner sc m
            (ScannerEngine.note
               (ScannerEngine.Began (ScannerEngine.clock (ScannerEngine.announce m s)) m)
               (ScannerEngine.announce m s)))
    with (ScannerEngine.call_scanner sc m s).
  rewrite Hcall.
  destruct (after_scanner_keeps m t s) as (Hc & Hr & Hconf & _).
  unfold ScannerEngine.module_failed.
  rewrite (stop_on_error_conf _ _ Hconf).
  destruct (ScannerEngine.stop_on_error (ScannerEngine.eng s)); cbn [fst snd];
    (split; [reflexivity|]); split; assumption.
Qed.

Lemma failed_stage_writes_no_checkpoint_witness :
  (ScannerEngine._run_module Scenario.faulty "subdomain_enum" 0 Scenario.booted).2 = ScannerEngine.Proceeds /\
  ScannerEngine.results_cache
    (ScannerEngine.eng
       (ScannerEngine._run_module Scenario.faulty "subdomain_enum" 0 Scenario.booted).1)
    = JDict [] /\
  same_checkpoints (disk (ScannerEngine.w Scenario.booted))
    (disk (ScannerEngine.w
             (ScannerEngine._run_module Scenario.faulty "subdomain_enum" 0 Scenario.booted).1)).
Proof.
  apply (failed_stage_writes_no_checkpoint Scenario.faulty "subdomain_enum" 0%nat
           Scenario.booted (Scenario.broken 5000) 5010%N
           (ScannerError "Target acme not found")); reflexivity.
Defined.

Section StageSuccess.
Import ScannerEngine.

Lemma lookup_set_eq k v d : Json.lookup k (Json.set k v d) = Some v.
Proof.
  induction d as [|[k' v'] d IH]; simpl.
  - now rewrite String.eqb_refl.
  - destruct (String.eqb k k') eqn:E; simpl.
    + now rewrite String.eqb_refl.
    + now rewrite E.
Qed.

Lemma lookup_set_ne k k' v d :
  k' <> k -> Json.lookup k' (Json.set k v d) = Json.lookup k' d.
Proof.
  intros Hne. induction d as [|[k0 v0] d IH]; simpl.
  - destruct (String.eqb_spec k' k); [contradiction|reflexivity].
  - destruct (String.eqb_spec k k0) as [->|Hk]; simpl.
    + destruct (String.eqb_spec k' k0); [contradiction|reflexivity].
    + now rewrite IH.
Qed.

End StageSuccess.

(** X10.  When the scanner of a stage returns and the two checkpoint
    writes succeed, the state file of the scan holds a checkpoint that
    names the stage as current module, lists the stages up to it as
    completed and the later ones as pending (together the static order),
    and carries the results cache with the result of the stage in it. *)
Theorem completed_stage_is_checkpointed :
  forall E m i s sc t r d,
    ScannerEngine.scanners E m = Some sc ->
    ScannerEngine.call_scanner sc m s = Some (t, Ok r) ->
    ScannerEngine.results_cache (ScannerEngine.eng s) = JDict d ->
    ScannerEngine.faults E m = (FileOk, false) ->
    let s' := (ScannerEngine._run_module E m i s).1 in
    let completed := firstn (i + 1) ScannerEngine.MODULE_ORDER in
    let pending := skipn (i + 1) ScannerEngine.MODULE_ORDER in
    exists entries,
      files (disk (ScannerEngine.w s'))
        !! StateCheckpoint.state_file (ScannerEngine.scan (ScannerEngine.eng s))
        = Some (Encoded (JDict entries)) /\
      Json.lookup "current_module" entries = Some (JStr m) /\
      Json.lookup "completed_modules" entries = Some (JList (map JStr completed)) /\
      Json.lookup "pending_modules" entries = Some (JList (map JStr pending)) /\
      (completed ++ pending)%list = ScannerEngine.MODULE_ORDER /\
      Json.lookup "results_cache" entries = Some (JDict (Json.set m r d)) /\
      Json.lookup m (Json.set m r d) = Some r /\
      ScannerEngine.results_cache (ScannerEngine.eng s') = JDict (Json.set m r d).
Proof.
  intros E m i s sc t r d Hsc Hcall Hcache Hfaults s' completed pending.
  unfold s', ScannerEngine._run_module. rewrite Hsc.
  change (ScannerEngine.call_scanner sc m
            (ScannerEngine.note
               (ScannerEngine.Began (ScannerEngine.clock (ScannerEngine.announce m s)) m)
               (ScannerEngine.announce m s)))
    with (ScannerEngine.call_scanner sc m s).
  rewrite Hcall.
  destruct (after_scanner_keeps m t s) as (_ & Hr & _ & Hscan & _).
  cbn zeta in Hr, Hscan.
  unfold ScannerEngine.complete. rewrite Hr, Hcache. cbn [ScannerEngine.setitem].
  rewrite Hfaults. cbn [fst snd].
  unfold StateCheckpoint.save_state, StateCheckpoint.checkpoint.
  cbn [ScannerEngine.results_cache ScannerEngine.eng ScannerEngine.with_world
       ScannerEngine.with_engine ScannerEngine.set_results_cache ScannerEngine.scan].
  rewrite serialize_results_dict. cbn [mbind result_bind bind].
  cbn [StateCheckpoint.write_file fst snd ScannerEngine.w ScannerEngine.with_world
       set_disk disk files ScannerEngine.eng ScannerEngine.results_cache].
  rewrite Hscan.
  eexists. split; [apply lookup_insert_eq|].
  split; [reflexivity|]. split; [reflexivity|]. split; [reflexivity|].
  split; [apply firstn_skipn|]. split; [reflexivity|].
  split; [apply lookup_set_eq|reflexivity].
Qed.

Lemma completed_stage_is_checkpointed_witness :
  exists entries,
    files (disk (ScannerEngine.w
                   (ScannerEngine._run_module Scenario.calm "subdomain_enum" 0
                      Scenario.booted).1))
      !! StateCheckpoint.state_file "s1" = Some (Encoded (JDict entries)) /\
    Json.lookup "current_module" entries = Some (JStr "subdomain_enum") /\
    Json.lookup "completed_modules" entries = Some (JList [JStr "subdomain_enum"]) /\
    Json.lookup "pending_modules" entries
      = Some (JList (map JStr (skipn 1 ScannerEngine.MODULE_ORDER))) /\
    (firstn 1 ScannerEngine.MODULE_ORDER ++ skipn 1 ScannerEngine.MODULE_ORDER)%list
      = ScannerEngine.MODULE_ORDER /\
    Json.lookup "results_cache" entries = Some (JDict [("subdomain_enum", JDict [])]) /\
    Json.lookup "subdomain_enum" [("subdomain_enum", JDict [])] = Some (JDict []) /\
    ScannerEngine.results_cache
      (ScannerEngine.eng
         (ScannerEngine._run_module Scenario.calm "subdomain_enum" 0 Scenario.booted).1)
      = JDict [("subdomain_enum", JDict [])].
Proof.
  apply (completed_stage_is_checkpointed Scenario.calm "subdomain_enum" 0%nat
           Scenario.booted (Scenario.quiet 60000) 60010%N (JDict []) []); reflexivity.
Defined.

(** ** The engine: an undisturbed run *)

Section Undisturbed.
Import ScannerEngine.

Lemma began_app lg lg' :
  Scenario.began (lg ++ lg') = (Scenario.began lg ++ Scenario.began lg')%list.
Proof. unfold Scenario.began. apply flat_map_app. Qed.

(** Commands that neither pause nor stop leave the flags and the
    configuration of an engine that is not paused as they are, and begin
    no stage. *)
Lemma deliver_undisturbed t cmds e wd lg :
  undisturbed cmds -> _paused e = false ->
  undisturbed (pending (deliver t cmds e wd lg)) /\
  _paused (eng (deliver t cmds e wd lg)) = false /\
  _stopped (eng (deliver t cmds e wd lg)) = _stopped e /\
  conf (eng (deliver t cmds e wd lg)) = conf e /\
  Scenario.began (log (deliver t cmds e wd lg)) = Scenario.began lg.
Proof.
  intros Hall. revert e wd lg.
  induction Hall as [|[tc c] cmds Hc Hall IH]; intros e wd lg Hp; cbn [deliver].
  - cbn. repeat split; auto. constructor.
  - destruct (tc <=? t)%N.
    + destruct c as [qc| | |]; cbn [snd harmless] in Hc; try discriminate; cbn [apply].
      * destruct (IH e (TaskQueue.apply tc qc wd) (lg ++ [Issued tc (Queue qc)])%list Hp)
          as (H1 & H2 & H3 & H4 & H5).
        repeat split; auto. rewrite H5, began_app. cbn. apply app_nil_r.
      * destruct (IH (resume e) wd (lg ++ [Issued tc Resume])%list eq_refl)
          as (H1 & H2 & H3 & H4 & H5).
        repeat split; auto. rewrite H5, began_app. cbn. apply app_nil_r.
    + cbn. repeat split; auto. constructor; assumption.
Qed.

Lemma complete_keeps E m i r s :
  pending (complete E m i r s).1 = pending s /\
  _paused (eng (complete E m i r s).1) = _paused (eng s) /\
  _stopped (eng (complete E m i r s).1) = _stopped (eng s) /\
  conf (eng (complete E m i r s).1) = conf (eng s) /\
  log (complete E m i r s).1 = log s /\
  (stop_on_error (eng s) = false -> (complete E m i r s).2 = Proceeds).
Proof.
  unfold complete, module_failed.
  destruct (setitem _ _ _) as [cache|e].
  - cbn [eng with_engine with_world set_results_cache conf].
    destruct (StateCheckpoint.save_state _ _ _ _ _ _ _ _ _ _) as [st|e].
    + cbn. repeat split; auto.
    + unfold stop_on_error. cbn [eng with_engine with_world set_results_cache conf].
      destruct (Json.truthy _) eqn:Ht; cbn; repeat split; auto; congruence.
  - destruct (stop_on_error (eng s)) eqn:Hs; cbn; repeat split; auto; congruence.
Qed.

(** A stage of an engine that nobody pauses or stops, when the call of
    its scanner comes back. *)
Lemma run_module_undisturbed E m i s :
  undisturbed (pending s) -> _paused (eng s) = false ->
  (forall sc, scanners E m = Some sc -> is_Some (call_scanner sc m s)) ->
  undisturbed (pending (_run_module E m i s).1) /\
  _paused (eng (_run_module E m i s).1) = false /\
  _stopped (eng (_run_module E m i s).1) = _stopped (eng s) /\
  conf (eng (_run_module E m i s).1) = conf (eng s) /\
  Scenario.began (log (_run_module E m i s).1)
    = (Scenario.began (log s) ++ match scanners E m with Some _ => [m] | None => [] end)%list /\
  (stop_on_error (eng s) = false -> (_run_module E m i s).2 = Proceeds).
Proof.
  intros Hu Hp Hret. unfold _run_module.
  destruct (announce_keeps m s) as (_ & He & Hpa & Hcl & Hlg).
  destruct (scanners E m) as [sc|].
  - change (call_scanner sc m (note (Began (clock (announce m s)) m) (announce m s)))
      with (call_scanner sc m s).
    destruct (Hret sc eq_refl) as [[t r] ->].
    set (s2 := note _ (advance t _)).
    assert (H2 : undisturbed (pending s2) /\ _paused (eng s2) = false /\
                 _stopped (eng s2) = _stopped (eng s) /\ conf (eng s2) = conf (eng s) /\
                 Scenario.began (log s2) = (Scenario.began (log s) ++ [m])%list).
    { unfold s2, advance. cbn [note pending eng log clock w].
      match goal with |- context [deliver ?t0 ?c ?e ?wd ?lg] =>
        destruct (deliver_undisturbed t0 c e wd lg) as (H1 & H2 & H3 & H4 & H5) end.
      - now rewrite Hpa.
      - now rewrite He.
      - rewrite He in H3, H4. repeat split; auto.
        rewrite began_app, H5, began_app, Hlg. cbn. now rewrite app_nil_r. }
    destruct H2 as (Hu2 & Hp2 & Hs2 & Hc2 & Hb2).
    destruct r as [res|e].
    + destruct (complete_keeps E m i res s2) as (H1 & H3 & H4 & H5 & Hl & Hn).
      rewrite H1, H3, H4, H5, Hl. repeat split; auto; try congruence.
      intros Hs. apply Hn. unfold stop_on_error in *. now rewrite Hc2.
    + unfold module_failed, stop_on_error. rewrite Hc2.
      destruct (Json.truthy _) eqn:Ht; cbn [fst snd];
        repeat split; auto; unfold stop_on_error; intros; congruence.
  - cbn [fst snd]. rewrite He, Hpa, Hlg, app_nil_r. repeat split; auto.
Qed.

(** The stage loop of an engine that nobody pauses or stops, with
    [stop_on_error] off and scanners whose calls come back: every stage
    begins, once, in order. *)
Lemma stage_loop_runs_all E mods i s :
  undisturbed (pending s) -> _paused (eng s) = false -> _stopped (eng s) = false ->
  stop_on_error (eng s) = false ->
  (forall m sc s0, scanners E m = Some sc -> is_Some (call_scanner sc m s0)) ->
  Forall (fun m => is_Some (scanners E m)) mods ->
  exists s',
    stage_loop E mods i s = Returned s' /\
    Scenario.began (log s') = (Scenario.began (log s) ++ mods)%list /\
    _stopped (eng s') = false.
Proof.
  intros Hu Hpa Hst Hsoe Hret Hall. revert i s Hu Hpa Hst Hsoe.
  induction Hall as [|m mods [sc Hsc] Hall IH]; intros i s Hu Hpa Hst Hsoe.
  - exists s. cbn. now rewrite app_nil_r.
  - cbn [stage_loop]. rewrite Hst, Hpa, Hst.
    destruct (run_module_undisturbed E m i s Hu Hpa (fun sc => Hret m sc s))
      as (H1 & H2 & H3 & H4 & Hb & Hn).
    rewrite Hsc in Hb.
    destruct (_run_module E m i s) as [s1 r] eqn:Hrun. cbn [fst snd] in *.
    rewrite (Hn Hsoe).
    destruct (IH (S i) s1 H1 H2) as (s' & Hloop & Hb' & Hs');
      [congruence|unfold stop_on_error in *; now rewrite H4|].
    exists s'. split; [exact Hloop|]. split; [|exact Hs'].
    rewrite Hb', Hb, <- app_assoc. reflexivity.
Qed.

End Undisturbed.

(** X11.  A run that nobody has paused or stopped and nobody pauses or
    stops while it lasts (other commands may come), of a scan without
    [stop_on_error], returns if every call of a scanner comes back,
    whether the scanner returns or raises and whether the checkpoint
    writes succeed or fail: from the stage the resume state points at,
    every stage of the static order begins once, in order, and the
    checkpoint is cleared at the end. *)
Theorem undisturbed_run_begins_every_stage :
  forall E s,
    ScannerEngine.undisturbed (ScannerEngine.pending s) ->
    ScannerEngine._paused (ScannerEngine.eng s) = false ->
    ScannerEngine._stopped (ScannerEngine.eng s) = false ->
    ScannerEngine.stop_on_error (ScannerEngine.eng s) = false ->
    (forall m sc s0, ScannerEngine.scanners E m = Some sc ->
                     is_Some (ScannerEngine.call_scanner sc m s0)) ->
    Forall (fun m => is_Some (ScannerEngine.scanners E m)) ScannerEngine.MODULE_ORDER ->
    let start :=
      (ScannerEngine.resume_point
         (StateCheckpoint.load_state (disk (ScannerEngine.w s))
            (ScannerEngine.scan (ScannerEngine.eng s)))
         (ScannerEngine.eng s)).1 in
    exists s',
      ScannerEngine.run E s = ScannerEngine.Returned s' /\
      Scenario.began (ScannerEngine.log s')
        = (Scenario.began (ScannerEngine.log s)
             ++ skipn start ScannerEngine.MODULE_ORDER)%list /\
      exists lg, ScannerEngine.log s' = (lg ++ [ScannerEngine.Cleared (ScannerEngine.clock s')])%list.
Proof.
  intros E s Hp Hpa Hst Hsoe Hret Hall start. unfold ScannerEngine.run. unfold start.
  pose proof (resume_point_stopped
                (StateCheckpoint.load_state (disk (ScannerEngine.w s))
                   (ScannerEngine.scan (ScannerEngine.eng s)))
                (ScannerEngine.eng s)) as Hrs.
  assert (Hrp : forall loaded e,
            ScannerEngine._paused (ScannerEngine.resume_point loaded e).2
              = ScannerEngine._paused e /\
            ScannerEngine.conf (ScannerEngine.resume_point loaded e).2
              = ScannerEngine.conf e).
  { intros loaded e. unfold ScannerEngine.resume_point.
    destruct loaded as [[| | | | |r]|]; try (split; reflexivity).
    destruct (Json.truthy (JDict r) && _); split; reflexivity. }
  destruct (Hrp (StateCheckpoint.load_state (disk (ScannerEngine.w s))
                   (ScannerEngine.scan (ScannerEngine.eng s)))
                (ScannerEngine.eng s)) as [Hrpa Hrc].
  destruct (ScannerEngine.resume_point _ _) as [i e]. cbn [fst snd] in *.
  destruct (stage_loop_runs_all E (skipn i ScannerEngine.MODULE_ORDER) i
              (ScannerEngine.with_engine (fun _ => e) s))
    as (s1 & Hloop & Hb & Hs1); cbn; try congruence; try assumption.
  - unfold ScannerEngine.stop_on_error in *. cbn. now rewrite Hrc.
  - rewrite <- (firstn_skipn i ScannerEngine.MODULE_ORDER) in Hall.
    now apply Forall_app in Hall.
  - rewrite Hloop, Hs1. eexists. split; [reflexivity|].
    unfold ScannerEngine.clear_checkpoint. cbn [ScannerEngine.note ScannerEngine.log
      ScannerEngine.with_world ScannerEngine.clock].
    split; [|eexists; reflexivity].
    rewrite began_app, Hb. cbn. now rewrite app_nil_r.
Qed.

Lemma undisturbed_run_begins_every_stage_witness :
  exists s',
    ScannerEngine.run Scenario.faulty Scenario.visited = ScannerEngine.Returned s' /\
    Scenario.began (ScannerEngine.log s') = ScannerEngine.MODULE_ORDER /\
    exists lg, ScannerEngine.log s' = (lg ++ [ScannerEngine.Cleared (ScannerEngine.clock s')])%list.
Proof.
  apply (undisturbed_run_begins_every_stage Scenario.faulty Scenario.visited);
    try reflexivity.
  - repeat constructor.
  - intros m sc s0 H. unfold Scenario.faulty in H. cbn in H.
    destruct (String.eqb m "subdomain_enum"); injection H as <-; eexists; reflexivity.
  - repeat constructor; eexists; reflexivity.
Defined.

(** ** The engine: the index of a stage *)

Section IndexBound.
Import ScannerEngine.

Lemma index_of_lt x l i : index_of x l = Some i -> (i < length l)%nat.
Proof.
  revert i. induction l as [|y l IH]; intros i; simpl; [discriminate|].
  destruct (Json.is_str y x); [intros [= <-]; lia|].
  destruct (index_of x l) as [j|]; simpl; [|discriminate].
  intros [= <-]. specialize (IH j eq_refl). lia.
Qed.

End IndexBound.

(** X12.  [_get_module_index] always gives an index inside the static
    order: whatever a checkpoint names as current module, a resumed run
    has at least one stage left to execute. *)
Theorem get_module_index_in_range :
  forall name,
    (ScannerEngine._get_module_index name < length ScannerEngine.MODULE_ORDER)%nat /\
    skipn (ScannerEngine._get_module_index name) ScannerEngine.MODULE_ORDER <> [].
Proof.
  intros name.
  assert (H : (ScannerEngine._get_module_index name
               < length ScannerEngine.MODULE_ORDER)%nat).
  { unfold ScannerEngine._get_module_index.
    destruct (negb (Json.truthy name)); [simpl; lia|].
    destruct (ScannerEngine.index_of name ScannerEngine.MODULE_ORDER) as [i|] eqn:E;
      [now apply index_of_lt in E|simpl; lia]. }
  split; [exact H|].
  intros Hnil. apply (f_equal (@length string)) in Hnil.
  rewrite length_skipn in Hnil. simpl in Hnil, H. lia.
Qed.

(** ** The worker *)

Section WorkerFacts.
Import ScannerEngine Worker.

Lemma error_message_is_no_parameter now id new_status text wd :
  call_update_scan_status now id new_status [("error_message", text)] wd = Raise TypeError.
Proof. reflexivity. Qed.

Lemma release_clears id wd :
  current_task (release id wd) = None /\ active_tasks (release id wd) !! id = None /\
  disk (release id wd) = disk wd /\ heap (release id wd) = heap wd.
Proof.
  unfold release. cbn.
  destruct (active_tasks wd !! id) eqn:E; cbn; repeat split; auto.
  apply lookup_delete_eq.
Qed.

Lemma current_is_update_task id l f wd :
  (forall t, scan_id (f t) = scan_id t) ->
  TaskQueue.current_is id (update_task l f wd) = TaskQueue.current_is id wd.
Proof.
  intros Hf. unfold TaskQueue.current_is, update_task. cbn.
  destruct (current_task wd) as [lc|]; [|reflexivity].
  rewrite lookup_alter. destruct (decide (l = lc)) as [->|_]; [|reflexivity].
  destruct (heap wd !! lc); simpl; [now rewrite Hf|reflexivity].
Qed.

Lemma stop_task_leaves id wd l :
  active_tasks wd !! id = Some l ->
  heap (TaskQueue.stop_task id wd) = alter (set_status CANCELLED) l (heap wd) /\
  queue (TaskQueue.stop_task id wd) = queue wd /\
  active_tasks (TaskQueue.stop_task id wd) = active_tasks wd /\
  paused_tasks (TaskQueue.stop_task id wd) = paused_tasks wd /\
  pause_event (TaskQueue.stop_task id wd) = pause_event wd /\
  disk (TaskQueue.stop_task id wd) = disk wd /\
  TaskQueue.current_is id (TaskQueue.stop_task id wd) = false.
Proof.
  intros Ha. unfold TaskQueue.stop_task. rewrite Ha.
  destruct (TaskQueue.current_is id (update_task l (set_status CANCELLED) wd)) eqn:Hc;
    cbn; repeat split; auto.
Qed.

Lemma pause_task_not_current id wd l :
  active_tasks wd !! id = Some l ->
  TaskQueue.current_is id wd = false ->
  TaskQueue.pause_task id wd
  = set_paused_tasks (<[id := l]> (paused_tasks wd)) (update_task l (set_status PAUSED) wd).
Proof.
  intros Ha Hc. unfold TaskQueue.pause_task. rewrite Ha.
  change (TaskQueue.current_is id
            (set_paused_tasks
               (<[id := l]> (paused_tasks (update_task l (set_status PAUSED) wd)))
               (update_task l (set_status PAUSED) wd)))
    with (TaskQueue.current_is id (update_task l (set_status PAUSED) wd)).
  rewrite current_is_update_task by reflexivity. rewrite Hc. reflexivity.
Qed.

End WorkerFacts.

(** X13.  When the run of the engine raises, the worker marks the task
    failed and then calls [update_scan_status] with [error_message=], a
    keyword the function does not have: the call raises [TypeError], the
    row of the scan is not written (it keeps the status it had), and the
    [finally] clause forgets the current task and takes the scan out of
    the active map. *)
Theorem engine_exception_leaves_the_row :
  forall E now timeline l t0 wd e s,
    ScannerEngine.run E (Worker.boot now timeline l t0 wd) = ScannerEngine.Raised e s ->
    exists s',
      Worker._execute_task E now timeline l t0 wd = ScannerEngine.Raised TypeError s' /\
      disk (ScannerEngine.w s') = disk (ScannerEngine.w s) /\
      current_task (ScannerEngine.w s') = None /\
      active_tasks (ScannerEngine.w s') !! scan_id t0 = None /\
      option_map status (heap (ScannerEngine.w s') !! l)
        = option_map (fun _ => FAILED) (heap (ScannerEngine.w s) !! l) /\
      option_map error_message (heap (ScannerEngine.w s') !! l)
        = option_map (fun _ => Some (Worker.str e)) (heap (ScannerEngine.w s) !! l).
Proof.
  intros E now timeline l t0 wd e s Hrun.
  unfold Worker._execute_task. rewrite Hrun.
  rewrite error_message_is_no_parameter.
  eexists. split; [reflexivity|].
  cbn [ScannerEngine.w ScannerEngine.with_world].
  match goal with |- context [Worker.release ?id ?x] =>
    destruct (release_clears id x) as (H1 & H2 & H3 & H4) end.
  rewrite H1, H2, H3, H4. unfold update_task. cbn.
  rewrite !lookup_alter_eq.
  destruct (heap (ScannerEngine.w s) !! l); repeat split; reflexivity.
Qed.

Lemma engine_exception_leaves_the_row_witness :
  exists s',
    Worker._execute_task Scenario.faulty 10 [] 0 Scenario.strict_task
      (set_current_task (Some 0%nat) (set_queue [] Scenario.strict_queued))
      = ScannerEngine.Raised TypeError s' /\
    disk (ScannerEngine.w s') = disk (ScannerEngine.w Scenario.strict_raised) /\
    current_task (ScannerEngine.w s') = None /\
    active_tasks (ScannerEngine.w s') !! "s1" = None /\
    option_map status (heap (ScannerEngine.w s') !! 0%nat)
      = option_map (fun _ => FAILED) (heap (ScannerEngine.w Scenario.strict_raised) !! 0%nat) /\
    option_map error_message (heap (ScannerEngine.w s') !! 0%nat)
      = option_map (fun _ => Some "Target acme not found")
          (heap (ScannerEngine.w Scenario.strict_raised) !! 0%nat).
Proof.
  apply (engine_exception_leaves_the_row Scenario.faulty 10%N [] 0%nat Scenario.strict_task
           (set_current_task (Some 0%nat) (set_queue [] Scenario.strict_queued))
           (ScannerError "Target acme not found") Scenario.strict_raised).
  vm_compute. reflexivity.
Defined.

(** X14.  A scan that is stopped while it waits in the queue is dropped
    when its turn comes, if its status is still CANCELLED then: the worker
    takes it from the queue without a stage and without a write to the
    store.  But [stop_task] leaves the scan in the active map, so a
    [pause_task] that follows overwrites the status with PAUSED, and the
    worker then executes the task. *)
Theorem stopped_in_the_queue_is_dropped_unless_paused :
  forall E now timeline wd l t rest,
    queue wd = l :: rest ->
    heap wd !! l = Some t ->
    active_tasks wd !! scan_id t = Some l ->
    pause_event wd = true ->
    (exists s,
       Worker.process_next E now timeline (TaskQueue.stop_task (scan_id t) wd)
         = Some (ScannerEngine.Returned s) /\
       ScannerEngine.log s = [] /\
       disk (ScannerEngine.w s) = disk wd /\
       queue (ScannerEngine.w s) = rest /\
       option_map status (heap (ScannerEngine.w s) !! l) = Some CANCELLED) /\
    (exists t' wd',
       status t' = PAUSED /\ scan_id t' = scan_id t /\
       heap wd' !! l = Some t' /\ current_task wd' = Some l /\
       Worker.process_next E now timeline
         (TaskQueue.pause_task (scan_id t) (TaskQueue.stop_task (scan_id t) wd))
       = Some (Worker._execute_task E now timeline l t' wd')).
Proof.
  intros E now timeline wd l t rest Hq Hh Ha Hp.
  destruct (stop_task_leaves (scan_id t) wd l Ha) as (Hheap & Hqueue & Hact & _ & Hev & Hdisk & Hcur).
  assert (Hl : heap (TaskQueue.stop_task (scan_id t) wd) !! l = Some (set_status CANCELLED t)).
  { rewrite Hheap, lookup_alter_eq, Hh. reflexivity. }
  split.
  - unfold Worker.process_next. rewrite Hev, Hp, Hqueue, Hq. cbn [negb].
    cbn [set_queue heap]. rewrite Hl. cbn [status set_status].
    eexists. split; [reflexivity|]. cbn. rewrite Hl, Hdisk. auto.
  - rewrite (pause_task_not_current _ _ l) by (rewrite ?Hact; assumption).
    unfold Worker.process_next.
    cbn [set_paused_tasks update_task set_heap pause_event queue heap set_queue].
    rewrite Hev, Hp, Hqueue, Hq. cbn [negb].
    rewrite lookup_alter_eq, Hl. cbn [option_map fmap option_fmap set_status status].
    eexists _, _. split; [|split; [|split; [|split; [|reflexivity]]]].
    + reflexivity.
    + reflexivity.
    + cbn. rewrite lookup_alter_eq, Hl. reflexivity.
    + reflexivity.
Qed.

Lemma stopped_in_the_queue_is_dropped_unless_paused_witness :
  (exists s,
     Worker.process_next Scenario.calm 10 [] (TaskQueue.stop_task "s1" Scenario.queued)
       = Some (ScannerEngine.Returned s) /\
     ScannerEngine.log s = [] /\
     disk (ScannerEngine.w s) = disk Scenario.queued /\
     queue (ScannerEngine.w s) = [] /\
     option_map status (heap (ScannerEngine.w s) !! 0%nat) = Some CANCELLED) /\
  (exists t' wd',
     status t' = PAUSED /\ scan_id t' = "s1" /\
     heap wd' !! 0%nat = Some t' /\ current_task wd' = Some 0%nat /\
     Worker.process_next Scenario.calm 10 []
       (TaskQueue.pause_task "s1" (TaskQueue.stop_task "s1" Scenario.queued))
     = Some (Worker._execute_task Scenario.calm 10 [] 0%nat t' wd')).
Proof.
  apply (stopped_in_the_queue_is_dropped_unless_paused Scenario.calm 10%N []
           Scenario.queued 0%nat Scenario.s1_task []); vm_compute; reflexivity.
Defined.

(** X15.  Pausing an active scan and resuming it puts the queue's maps
    back as they were, touches neither the queue nor the store, sets the
    pause event, and leaves the task's status RUNNING, whatever it was
    before. *)
Theorem pause_then_resume_restores_the_maps :
  forall wd id l,
    active_tasks wd !! id = Some l ->
    paused_tasks wd !! id = None ->
    let wd' := TaskQueue.resume_task id (TaskQueue.pause_task id wd) in
    paused_tasks wd' = paused_tasks wd /\
    active_tasks wd' = active_tasks wd /\
    queue wd' = queue wd /\ disk wd' = disk wd /\
    pause_event wd' = true /\
    option_map status (heap wd' !! l) = option_map (fun _ => RUNNING) (heap wd !! l).
Proof.
  intros wd id l Ha Hp wd'. unfold wd', TaskQueue.pause_task. rewrite Ha.
  destruct (TaskQueue.current_is _ _); unfold TaskQueue.resume_task, update_task; cbn;
    rewrite lookup_insert_eq; cbn;
    rewrite delete_insert_eq, (delete_id _ _ Hp), (insert_id _ _ _ Ha);
    rewrite !lookup_alter_eq; destruct (heap wd !! l); repeat split; reflexivity.
Qed.

Lemma pause_then_resume_restores_the_maps_witness :
  let wd' := TaskQueue.resume_task "s1" (TaskQueue.pause_task "s1" Scenario.queued) in
  paused_tasks wd' = paused_tasks Scenario.queued /\
  active_tasks wd' = active_tasks Scenario.queued /\
  queue wd' = queue Scenario.queued /\ disk wd' = disk Scenario.queued /\
  pause_event wd' = true /\
  option_map status (heap wd' !! 0%nat)
    = option_map (fun _ => RUNNING) (heap Scenario.queued !! 0%nat).
Proof.
  apply (pause_then_resume_restores_the_maps Scenario.queued "s1" 0%nat);
    vm_compute; reflexivity.
Defined.

(** ** The resilience monitor: pausing and resuming all *)

Section PauseAll.
Import ResilienceManager.

(** A loop over scan ids whose step resumes one scan. *)
Section ResumeLoop.
Variable step : world -> string -> world.
Hypothesis step_paused : forall wd id, paused_tasks (step wd id) = delete id (paused_tasks wd).
Hypothesis step_active : forall wd id,
  is_Some (paused_tasks wd !! id) -> is_Some (active_tasks (step wd id) !! id).
Hypothesis step_mono : forall wd id other,
  is_Some (active_tasks wd !! other) -> is_Some (active_tasks (step wd id) !! other).

Lemma resume_loop_paused ids wd k :
  paused_tasks (fold_left step ids wd) !! k
  = if decide (k ∈ ids) then None else paused_tasks wd !! k.
Proof.
  revert wd. induction ids as [|id ids IH]; intros wd; simpl.
  - destruct (decide (k ∈ [])) as [H|_]; [inversion H|reflexivity].
  - rewrite IH, step_paused.
    destruct (decide (k ∈ ids)) as [Hin|Hnin].
    + rewrite decide_True by (right; exact Hin). reflexivity.
    + destruct (decide (k = id)) as [->|Hne].
      * rewrite decide_True by left. apply lookup_delete_eq.
      * rewrite decide_False by (intros Hc; inversion Hc; subst; tauto).
        now apply lookup_delete_ne.
Qed.

Lemma resume_loop_mono ids wd other :
  is_Some (active_tasks wd !! other) ->
  is_Some (active_tasks (fold_left step ids wd) !! other).
Proof.
  revert wd. induction ids as [|id ids IH]; intros wd H; simpl; [exact H|].
  apply IH. now apply step_mono.
Qed.

Lemma resume_loop_active ids wd id :
  id ∈ ids -> is_Some (paused_tasks wd !! id) ->
  is_Some (active_tasks (fold_left step ids wd) !! id).
Proof.
  revert wd. induction ids as [|x ids IH]; intros wd Hin Hp; [inversion Hin|].
  simpl. destruct (decide (id = x)) as [->|Hne].
  - apply resume_loop_mono. now apply step_active.
  - apply IH.
    + inversion Hin; subst; [congruence|assumption].
    + rewrite step_paused, lookup_delete_ne by congruence. exact Hp.
Qed.

Lemma resume_loop_all wd :
  paused_tasks (fold_left step (keys (paused_tasks wd)) wd) = ∅ /\
  forall id, is_Some (paused_tasks wd !! id) ->
             is_Some (active_tasks (fold_left step (keys (paused_tasks wd)) wd) !! id).
Proof.
  split.
  - apply map_empty. intros k. rewrite resume_loop_paused.
    destruct (decide (k ∈ keys (paused_tasks wd))) as [_|Hn]; [reflexivity|].
    destruct (paused_tasks wd !! k) eqn:E; [|reflexivity].
    exfalso. apply Hn. apply elem_of_keys. eauto.
  - intros id Hid. apply resume_loop_active; [now apply elem_of_keys|exact Hid].
Qed.
End ResumeLoop.

(** A loop over scan ids whose step pauses one scan. *)
Section PauseLoop.
Variable step : world -> string -> world.
Hypothesis step_active : forall wd id, active_tasks (step wd id) = active_tasks wd.
Hypothesis step_paused : forall wd id,
  paused_tasks (step wd id)
  = match active_tasks wd !! id with
    | Some l => <[id := l]> (paused_tasks wd)
    | None => paused_tasks wd
    end.

Lemma pause_loop_active ids wd :
  active_tasks (fold_left step ids wd) = active_tasks wd.
Proof.
  revert wd. induction ids as [|id ids IH]; intros wd; simpl; [reflexivity|].
  now rewrite IH, step_active.
Qed.

Lemma pause_loop_paused ids wd k :
  paused_tasks (fold_left step ids wd) !! k
  = match (if decide (k ∈ ids) then active_tasks wd !! k else None) with
    | Some l => Some l
    | None => paused_tasks wd !! k
    end.
Proof.
  revert wd. induction ids as [|id ids IH]; intros wd; simpl.
  - destruct (decide (k ∈ [])) as [H|_]; [inversion H|reflexivity].
  - rewrite IH, step_active, step_paused.
    destruct (decide (k ∈ ids)) as [Hin|Hnin].
    + rewrite decide_True by (right; exact Hin).
      destruct (active_tasks wd !! k) as [l|] eqn:Ek; [reflexivity|].
      destruct (active_tasks wd !! id) as [l'|] eqn:Ei; [|reflexivity].
      apply lookup_insert_ne. congruence.
    + destruct (decide (k = id)) as [->|Hne].
      * rewrite decide_True by left.
        destruct (active_tasks wd !! id) as [l|]; [apply lookup_insert_eq|reflexivity].
      * rewrite decide_False by (intros Hc; inversion Hc; subst; tauto).
        destruct (active_tasks wd !! id); [now apply lookup_insert_ne|reflexivity].
Qed.

Lemma pause_loop_all wd :
  paused_tasks (fold_left step (keys (active_tasks wd)) wd)
  = active_tasks wd ∪ paused_tasks wd.
Proof.
  apply map_eq. intros k. rewrite pause_loop_paused, lookup_union.
  destruct (decide (k ∈ keys (active_tasks wd))) as [Hin|Hn].
  - destruct (active_tasks wd !! k), (paused_tasks wd !! k); reflexivity.
  - destruct (active_tasks wd !! k) eqn:E.
    + exfalso. apply Hn. apply elem_of_keys. eauto.
    + now destruct (paused_tasks wd !! k).
Qed.
End PauseLoop.

Lemma pause_task_active id wd : active_tasks (TaskQueue.pause_task id wd) = active_tasks wd.
Proof.
  unfold TaskQueue.pause_task. destruct (active_tasks wd !! id); [|reflexivity].
  now destruct (TaskQueue.current_is _ _).
Qed.

Lemma pause_task_paused id wd :
  paused_tasks (TaskQueue.pause_task id wd)
  = match active_tasks wd !! id with
    | Some l => <[id := l]> (paused_tasks wd)
    | None => paused_tasks wd
    end.
Proof.
  unfold TaskQueue.pause_task. destruct (active_tasks wd !! id); [|reflexivity].
  now destruct (TaskQueue.current_is _ _).
Qed.

Lemma pause_task_disk id wd : disk (TaskQueue.pause_task id wd) = disk wd.
Proof.
  unfold TaskQueue.pause_task. destruct (active_tasks wd !! id); [|reflexivity].
  now destruct (TaskQueue.current_is _ _).
Qed.

Lemma resume_task_disk id wd : disk (TaskQueue.resume_task id wd) = disk wd.
Proof. unfold TaskQueue.resume_task. now destruct (paused_tasks wd !! id). Qed.

Lemma fold_disk (step : world -> string -> world) ids wd :
  (forall w0 id, disk (step w0 id) = disk w0) -> disk (fold_left step ids wd) = disk wd.
Proof.
  intros H. revert wd. induction ids as [|id ids IH]; intros wd; simpl; [reflexivity|].
  now rewrite IH, H.
Qed.

End PauseAll.

(** X16.  When the monitor pauses for an outage, every scan of the active
    map is in the paused map afterwards (the paused map becomes the
    active map joined with what was paused before), the active map is
    unchanged, and the monitor remembers the outage-pause. *)
Theorem auto_pause_pauses_every_active_scan :
  forall now m wd,
    let '(m', wd', acts) := ResilienceManager._auto_pause now m wd in
    paused_tasks wd' = active_tasks wd ∪ paused_tasks wd /\
    active_tasks wd' = active_tasks wd /\
    ResilienceManager._was_paused_by_outage m' = true /\
    acts = map ResilienceManager.AutoPaused (ResilienceManager.keys (active_tasks wd)).
Proof.
  intros now m wd. unfold ResilienceManager._auto_pause.
  split; [|split; [|split; reflexivity]].
  - apply (pause_loop_all (ResilienceManager.pause_step now)).
    + intros w0 id. unfold ResilienceManager.pause_step. cbn. apply pause_task_active.
    + intros w0 id. unfold ResilienceManager.pause_step. cbn.
      rewrite pause_task_paused. reflexivity.
  - apply (pause_loop_active (ResilienceManager.pause_step now)).
    intros w0 id. unfold ResilienceManager.pause_step. cbn. apply pause_task_active.
Qed.

(** X17.  The monitor leaves the scans alone on every tick but two: an
    offline tick changes nothing while the outage is shorter than 30
    seconds or once it has paused for it, and an online tick changes
    nothing unless an outage-pause is outstanding; a short outage ends
    without any scan being resumed. *)
Theorem monitor_tick_without_effect :
  forall now is_online cmds m wd,
    let since := default now (ResilienceManager._offline_since m) in
    (is_online = false /\
     (ResilienceManager._was_paused_by_outage m = true \/ (now - since < 30000)%N)) \/
    (is_online = true /\
     (ResilienceManager._was_paused_by_outage m = false \/
      ResilienceManager._offline_since m = None)) ->
    ResilienceManager._handle_network_state now is_online cmds m wd
    = (cmds,
       ResilienceManager.Manager (if is_online then None else Some since)
                                 (ResilienceManager._was_paused_by_outage m),
       wd, []).
Proof.
  intros now is_online cmds [since0 was] wd since.
  unfold ResilienceManager._handle_network_state. cbn in *.
  intros [[-> H]|[-> H]]; cbn.
  - fold since.
    change (1000 * ResilienceManager._pause_threshold)%N with 30000%N.
    destruct H as [->|H].
    + now rewrite andb_false_r.
    + destruct (N.leb_spec 30000 (now - since)); [lia|reflexivity].
  - destruct since0 as [t|]; [|reflexivity].
    destruct H as [->|H]; [reflexivity|discriminate].
Qed.

Lemma monitor_tick_without_effect_witness :
  ResilienceManager._handle_network_state 20000 false Outage.user
    (ResilienceManager.Manager (Some 0%N) false) Outage.before
  = (Outage.user, ResilienceManager.Manager (Some 0%N) false, Outage.before, []).
Proof.
  apply (monitor_tick_without_effect 20000%N false Outage.user
           (ResilienceManager.Manager (Some 0%N) false) Outage.before).
  left. split; [reflexivity|]. right. reflexivity.
Defined.

(** X18.  [trigger_resume] resumes every scan of the paused map, as the
    automatic resume does, but writes nothing to the store: the rows keep
    the status they had. *)
Theorem trigger_resume_writes_no_row :
  forall wd,
    let wd' := ResilienceManager.trigger_resume wd in
    paused_tasks wd' = ∅ /\
    (forall id, is_Some (paused_tasks wd !! id) -> is_Some (active_tasks wd' !! id)) /\
    disk wd' = disk wd.
Proof.
  intros wd wd'. unfold wd', ResilienceManager.trigger_resume.
  destruct (resume_loop_all (fun acc scan => TaskQueue.resume_task scan acc)) with (wd := wd)
    as [H1 H2].
  - intros w0 id. unfold TaskQueue.resume_task.
    destruct (paused_tasks w0 !! id) eqn:E; cbn; [reflexivity|].
    symmetry. now apply delete_id.
  - intros w0 id [l H]. unfold TaskQueue.resume_task. rewrite H. cbn.
    rewrite lookup_insert_eq. eauto.
  - intros w0 id other H. unfold TaskQueue.resume_task.
    destruct (paused_tasks w0 !! id); cbn; [|exact H].
    rewrite lookup_insert_is_Some. destruct (decide (id = other)); auto.
  - split; [exact H1|]. split; [exact H2|].
    apply fold_disk. intros. apply resume_task_disk.
Qed.

(** X24.  [trigger_pause] puts every scan of the active map in the paused
    map and keeps it in the active map, as the automatic pause does, but
    writes nothing to the store. *)
Theorem trigger_pause_writes_no_row :
  forall wd,
    let wd' := ResilienceManager.trigger_pause wd in
    paused_tasks wd' = active_tasks wd ∪ paused_tasks wd /\
    active_tasks wd' = active_tasks wd /\
    disk wd' = disk wd.
Proof.
  intros wd wd'. unfold wd', ResilienceManager.trigger_pause.
  split; [|split].
  - apply (pause_loop_all (fun acc scan => TaskQueue.pause_task scan acc)).
    + intros. apply pause_task_active.
    + intros. apply pause_task_paused.
  - apply (pause_loop_active (fun acc scan => TaskQueue.pause_task scan acc)).
    intros. apply pause_task_active.
  - apply fold_disk. intros. apply pause_task_disk.
Qed.

(** ** The process supervisor: runs that nothing holds up, and stopped runs *)

Section Readers.
Import SubprocessManager.
Local Open Scope N_scope.


Lemma flags_at_stopped f0 cmds t :
  stopped f0 = true -> stopped (flags_at f0 cmds t) = true.
Proof.
  revert f0. induction cmds as [|[tc c] cmds IH]; intros f0 H0; simpl; [exact H0|].
  destruct (tc <=? t); [|exact H0].
  apply IH. destruct c; simpl; congruence.
Qed.



Lemma read_stream_stopped f0 cmds deadline gone_at from ls eof t :
  stopped f0 = true ->
  (length (lines (read_stream f0 cmds deadline gone_at from ls eof t)) <= 1)%nat /\
  sleeps (events (read_stream f0 cmds deadline gone_at from ls eof t)) = [] /\
  length (signals (events (read_stream f0 cmds deadline gone_at from ls eof t)))
  = length (lines (read_stream f0 cmds deadline gone_at from ls eof t)).
Proof.
  intros Hs. destruct ls as [|[arrival raw] rest]; cbn [read_stream].
  - destruct (deadline <? N.max t eof); cbn; auto.
  - destruct (deadline <? N.max t arrival); [cbn; auto|].
    destruct (readline raw) as [line|e]; [|cbn; auto].
    rewrite (flags_at_stopped _ _ _ Hs). cbn. auto.
Qed.

Lemma sleeps_app evs1 evs2 : sleeps (evs1 ++ evs2) = (sleeps evs1 ++ sleeps evs2)%list.
Proof. unfold sleeps. apply flat_map_app. Qed.

End Readers.



(** X20.  Once the supervisor is stopped it stays stopped, and a reader
    of a stopped supervisor takes at most one line, calls terminate once
    for it and never sleeps in the pause loop, whether the supervisor is
    paused or not and whatever commands follow. *)
Theorem stopped_reader_takes_one_line :
  forall f0 cmds deadline gone_at from ls eof t,
    SubprocessManager.stopped f0 = true ->
    let r := SubprocessManager.read_stream f0 cmds deadline gone_at from ls eof t in
    (forall t', SubprocessManager.stopped (SubprocessManager.flags_at f0 cmds t') = true) /\
    (length (SubprocessManager.lines r) <= 1)%nat /\
    SubprocessManager.sleeps (SubprocessManager.events r) = [] /\
    length (SubprocessManager.signals (SubprocessManager.events r))
    = length (SubprocessManager.lines r).
Proof.
  intros f0 cmds deadline gone_at from ls eof t Hs r. split.
  - intros t'. now apply flags_at_stopped.
  - now apply read_stream_stopped.
Qed.

Lemma stopped_reader_takes_one_line_witness :
  let r := SubprocessManager.read_stream
             (SubprocessManager.Flags true true)
             [(1500%N, SubprocessManager.ResumeAll)] 300012%N 4010%N SubprocessManager.Stdout
             (SubprocessManager.stdout_lines (Tool.subfinder 10))
             (SubprocessManager.stdout_eof (Tool.subfinder 10)) 12%N in
  (forall t', SubprocessManager.stopped
                (SubprocessManager.flags_at (SubprocessManager.Flags true true)
                   [(1500%N, SubprocessManager.ResumeAll)] t') = true) /\
  (length (SubprocessManager.lines r) <= 1)%nat /\
  SubprocessManager.sleeps (SubprocessManager.events r) = [] /\
  length (SubprocessManager.signals (SubprocessManager.events r))
  = length (SubprocessManager.lines r).
Proof.
  apply (stopped_reader_takes_one_line (SubprocessManager.Flags true true)
           [(1500%N, SubprocessManager.ResumeAll)] 300012%N 4010%N SubprocessManager.Stdout
           (SubprocessManager.stdout_lines (Tool.subfinder 10))
           (SubprocessManager.stdout_eof (Tool.subfinder 10)) 12%N).
  reflexivity.
Defined.

(** ** The tool manager: what is memoised *)

(** X21.  [ensure_tool] memoises success only: the memo never holds a
    value other than [True]; a call that reports the tool missing leaves
    the manager as it was, so the next call tries again; a call that
    reports it present has it memoised; the configuration is never
    changed and at most one install command is run. *)
Theorem ensure_tool_memoises_success_only :
  forall h now m tool,
    (forall k b, ToolManager.installed_tools m !! k = Some b -> b = true) ->
    let '(ok, m', cmds) := ToolManager.ensure_tool h now m tool in
    (forall k b, ToolManager.installed_tools m' !! k = Some b -> b = true) /\
    ToolManager.tools_config m' = ToolManager.tools_config m /\
    (ok = true -> ToolManager.installed_tools m' !! tool = Some true) /\
    (ok = false -> m' = m) /\
    (length cmds <= 1)%nat.
Proof.
  intros h now m tool Hinv.
  assert (Hins : forall k b,
            (<[tool := true]> (ToolManager.installed_tools m)) !! k = Some b -> b = true).
  { intros k b. destruct (decide (tool = k)) as [->|Hne].
    - rewrite lookup_insert_eq. congruence.
    - rewrite lookup_insert_ne by exact Hne. apply Hinv. }
  unfold ToolManager.ensure_tool.
  destruct (ToolManager.installed_tools m !! tool) as [memo|] eqn:Em.
  - pose proof (Hinv _ _ Em) as ->.
    repeat split; auto; discriminate.
  - destruct (ToolManager.check_tool h m tool).
    + cbn. repeat split; auto; try discriminate.
      intros _. apply lookup_insert_eq.
    + unfold ToolManager.install_tool.
      destruct (ToolManager.configured m tool) as [c|]; [|repeat split; auto; discriminate].
      destruct (ToolManager.install_cmd c) as [cmd|]; [|repeat split; auto; discriminate].
      destruct (String.eqb cmd ""); [repeat split; auto; discriminate|].
      destruct (SubprocessManager.run _ _ _ _ _ _ _) as [[[r|e] evs] t];
        [|repeat split; auto; discriminate].
      destruct (SubprocessManager.returncode r =? 0)%Z.
      * cbn. repeat split; auto; try discriminate.
        intros _. apply lookup_insert_eq.
      * repeat split; auto; discriminate.
Qed.

Lemma ensure_tool_memoises_success_only_witness :
  let '(ok, m', cmds) :=
    ToolManager.ensure_tool C9_example.missing 0%N C9_example.fresh "nuclei" in
  (forall k b, ToolManager.installed_tools m' !! k = Some b -> b = true) /\
  ToolManager.tools_config m' = ToolManager.tools_config C9_example.fresh /\
  (ok = true -> ToolManager.installed_tools m' !! "nuclei" = Some true) /\
  (ok = false -> m' = C9_example.fresh) /\
  (length cmds <= 1)%nat.
Proof.
  apply (ensure_tool_memoises_success_only C9_example.missing 0%N C9_example.fresh "nuclei").
  intros k b H. cbn in H. rewrite lookup_empty in H. discriminate.
Defined.

(** X22.  An install command whose pipes are still open 300 seconds
    after it was spawned does not install the tool: [ensure_tool] gives
    [False], has run the command once and memoises nothing, whether the
    run timed out or raised. *)
Theorem hung_install_reports_missing :
  forall h now m tool c cmd,
    ToolManager.installed_tools m !! tool = None ->
    ToolManager.configured m tool = Some c ->
    h.(ToolManager.which) (default tool (ToolManager.binary_path c)) = false ->
    ToolManager.install_cmd c = Some cmd ->
    cmd <> EmptyString ->
    (now + SubprocessManager.spawn_time (h.(ToolManager.spawn) cmd) + 300000
       < SubprocessManager.stdout_eof (h.(ToolManager.spawn) cmd) \/
     now + SubprocessManager.spawn_time (h.(ToolManager.spawn) cmd) + 300000
       < SubprocessManager.stderr_eof (h.(ToolManager.spawn) cmd))%N ->
    ToolManager.ensure_tool h now m tool = (false, m, [cmd]).
Proof.
  intros h now m tool c cmd Hm Hc Hw Hi Hne Hopen.
  unfold ToolManager.ensure_tool, ToolManager.check_tool, ToolManager.install_tool.
  rewrite Hm, Hc, Hw, Hi.
  destruct (String.eqb_spec cmd ""); [contradiction|].
  unfold SubprocessManager.run.
  destruct (negb _); [reflexivity|].
  assert (Hns : SubprocessManager.never_stopped ToolManager.subprocess_mgr []).
  { split; [reflexivity|constructor]. }
  pose proof (gather_open_pipe ToolManager.subprocess_mgr []
                (now + SubprocessManager.spawn_time (h.(ToolManager.spawn) cmd))
                (now + SubprocessManager.spawn_time (h.(ToolManager.spawn) cmd) + 1000 * 300)
                (h.(ToolManager.spawn) cmd) Hns) as Hg.
  change (1000 * 300)%N with 300000%N in *.
  specialize (Hg Hopen).
  destruct (SubprocessManager.gather _ _ _ _ _) as [[out err] done].
  cbn [snd] in Hg. destruct done as [t| |e t]; [now elim (Hg t)| |reflexivity].
  assert (Hgone : (SubprocessManager.gone (h.(ToolManager.spawn) cmd)
                   <=? now + SubprocessManager.spawn_time (h.(ToolManager.spawn) cmd)
                       + 300000)%N = false).
  { apply N.leb_gt. unfold SubprocessManager.gone. lia. }
  rewrite Hgone. reflexivity.
Qed.

Lemma hung_install_reports_missing_witness :
  ToolManager.ensure_tool Install.stuck 0%N C9_example.fresh "nuclei"
  = (false, C9_example.fresh,
     ["go install github.com/projectdiscovery/nuclei/v3/cmd/nuclei@latest"]).
Proof.
  apply (hung_install_reports_missing Install.stuck 0%N C9_example.fresh "nuclei"
           C9_example.nuclei).
  - reflexivity.
  - reflexivity.
  - reflexivity.
  - reflexivity.
  - discriminate.
  - left. vm_compute. reflexivity.
Defined.

(** ** The scans table: the two time stamps *)

(** X23.  [started_at] is stamped once: an update of a row that has a
    start time leaves it, whatever the new status; an update of a row
    without one stamps it when the new status is [running] and at no other
    status.  A [running] update that stamps the start never stamps
    [completed_at]. *)
Theorem started_at_is_stamped_once :
  forall now db scan_id new_status task prog r,
    db !! scan_id = Some r ->
    exists r',
      DB.update_scan_status now db scan_id new_status task prog !! scan_id = Some r' /\
      DB.started_at r'
      = match DB.started_at r with
        | Some t => Some t
        | None => if String.eqb new_status "running" then Some now else None
        end /\
      (new_status = "running" -> DB.completed_at r' = DB.completed_at r).
Proof.
  intros now db scan_id new_status task prog r Hr.
  unfold DB.update_scan_status, DB.is_scan_started. rewrite Hr.
  eexists. split; [apply lookup_insert_eq|].
  unfold DB.status_updates.
  set (r3 := match prog with
             | Some (kv :: p) => DB.set_progress _ _
             | _ => _
             end).
  assert (H3 : DB.started_at r3 = DB.started_at r /\ DB.completed_at r3 = DB.completed_at r).
  { unfold r3. destruct task as [tk|]; [destruct (String.eqb tk "")|];
      (destruct prog as [[|kv p]|]); split; reflexivity. }
  destruct H3 as [Hs Hc]. clearbody r3.
  destruct (DB.started_at r) as [t0|] eqn:Es; cbn [negb].
  - rewrite andb_false_r. split.
    + destruct (_ || _); cbn; exact Hs.
    + intros ->. cbn. exact Hc.
  - rewrite andb_true_r. split.
    + destruct (String.eqb new_status "running") eqn:En; [reflexivity|].
      destruct (_ || _); cbn; exact Hs.
    + intros ->. cbn. exact Hc.
Qed.

Lemma started_at_is_stamped_once_witness :
  exists r',
    DB.update_scan_status 500%N {[ "s1" := DB.new_row "example.com" 0%N ]} "s1" "running"
      (Some "subdomain_enum") None !! "s1" = Some r' /\
    DB.started_at r'
    = match DB.started_at (DB.new_row "example.com" 0%N) with
      | Some t => Some t
      | None => if String.eqb "running" "running" then Some 500%N else None
      end /\
    ("running" = "running" -> DB.completed_at r' = DB.completed_at (DB.new_row "example.com" 0%N)).
Proof.
  apply (started_at_is_stamped_once 500%N {[ "s1" := DB.new_row "example.com" 0%N ]} "s1"
           "running" (Some "subdomain_enum") None (DB.new_row "example.com" 0%N)).
  apply lookup_singleton_eq.
Defined.
